(** * geoapp/views.py: the continent search handler and its history page

    A shallow embedding of [home] and [history_view] of
    [assignment10/geoapp/views.py], and the properties of the pipeline
    "validate input, look up countries, sample, enrich with weather,
    persist, render".

    Python values that come out of [resp.json()] are modelled by [json];
    Python exceptions by [exn]; an expression that can raise by [Res]; a
    statement that also talks to the outside world (HTTP, the random
    generator, the clock, MongoDB) by the monad [M].

    The libraries the view calls are modelled by what they do:
    [requests] ([raise_for_status] raises on 4xx and 5xx,
    [Response.json()] raises a [RequestException] on a body that does not
    decode), [random.sample] (CPython's algorithm, fed from a tape of
    draws), [pymongo] (an insert that is accepted or raises, a query that
    sorts and limits or raises).  [forms.ContinentForm] is a parameter of
    the world. *)

From stdpp Require Import base decidable option list gmap strings sorting.
From Stdlib Require Import ZArith Lia.

#[local] Set Warnings "-register-all,-clear-no-such-hyp,-level-tolerance".

Local Open Scope Z_scope.
Local Open Scope string_scope.
Local Open Scope list_scope.
Local Open Scope nat_scope.

(** ** Values *)

(** What [json.loads] builds.  A float is kept as its decimal literal
    [mantissa * 10 ^ exponent]: the handler never computes with one, it
    only passes it on and tests it for truth.  A dict is an association
    list read by first match. *)
Inductive json : Type :=
| JNull
| JBool (b : bool)
| JInt (z : Z)
| JFloat (mantissa exponent : Z)
| JStr (s : string)
| JArr (items : list json)
| JObj (fields : list (string * json)).

(** [bool(v)] *)
Definition truthy (v : json) : bool :=
  match v with
  | JNull => false
  | JBool b => b
  | JInt z => negb (z =? 0)%Z
  | JFloat m _ => negb (m =? 0)%Z
  | JStr s => negb (String.eqb s "")
  | JArr items => match items with [] => false | _ :: _ => true end
  | JObj fields => match fields with [] => false | _ :: _ => true end
  end.

(** [d[k]] on the association list of a dict, if [k] is bound. *)
Fixpoint dict_get (k : string) (fields : list (string * json)) : option json :=
  match fields with
  | [] => None
  | (k', v) :: rest => if String.eqb k k' then Some v else dict_get k rest
  end.

(** [v != s] for a string literal [s]: only a str equal to [s] is equal. *)
Definition is_str (s : string) (v : json) : bool :=
  match v with
  | JStr s' => String.eqb s' s
  | _ => false
  end.

(** ** Exceptions *)

(** The exception classes that can occur.  The first five are
    [requests.RequestException] or subclasses of it ([JSONDecodeError] is
    [requests.exceptions.JSONDecodeError], what [Response.json()] raises);
    then the builtins raised by attribute access and subscripting; then
    [pymongo.errors.PyMongoError].  All are subclasses of [Exception]. *)
Inductive exn : Type :=
| RequestException
| ConnectionError
| Timeout
| HTTPError
| JSONDecodeError
| AttributeError
| TypeError
| IndexError
| KeyError
| ValueError
| PyMongoError.

#[global] Instance exn_eq_dec : EqDecision exn.
Proof. solve_decision. Defined.

(** [isinstance(e, requests.RequestException)] *)
Definition is_RequestException (e : exn) : bool :=
  match e with
  | RequestException | ConnectionError | Timeout | HTTPError | JSONDecodeError => true
  | _ => false
  end.

(** [isinstance(e, Exception)] *)
Definition is_Exception (e : exn) : bool := true.

(** The result of evaluating an expression: a value, or a raised
    exception.  [Hang] is the third way a run can go: it never gets there
    (only the rejection loop of [random.sample] can do that). *)
Inductive Res (A : Type) : Type :=
| Ok (a : A)
| Raise (e : exn)
| Hang.
Arguments Ok {A} a.
Arguments Raise {A} e.
Arguments Hang {A}.

#[global] Instance Res_ret : MRet Res := λ A a, Ok a.
#[global] Instance Res_bind : MBind Res := λ A B f r,
  match r with
  | Ok a => f a
  | Raise e => Raise e
  | Hang => Hang
  end.

(** ** Python operations on values *)

(** [v.get(k, d)]: only a dict has [get]. *)
Definition py_get (v : json) (k : string) (d : json) : Res json :=
  match v with
  | JObj fields => Ok (default d (dict_get k fields))
  | _ => Raise AttributeError
  end.

(** [v[0]] *)
Definition py_first (v : json) : Res json :=
  match v with
  | JArr (x :: _) => Ok x
  | JArr [] => Raise IndexError
  | JStr (String a _) => Ok (JStr (String a ""))
  | JStr "" => Raise IndexError
  | JObj _ => Raise KeyError
  | JNull | JBool _ | JInt _ | JFloat _ _ => Raise TypeError
  end.

(** [len(v)] *)
Definition py_len (v : json) : Res nat :=
  match v with
  | JArr items => Ok (length items)
  | JStr s => Ok (String.length s)
  | JObj fields => Ok (length fields)
  | JNull | JBool _ | JInt _ | JFloat _ _ => Raise TypeError
  end.

(** The items of a sequence, as [random.sample] sees its population: a
    list, or the characters of a str; anything else is not a sequence. *)
Definition py_sequence (v : json) : Res (list json) :=
  match v with
  | JArr items => Ok items
  | JStr s => Ok ((λ a, JStr (String a "")) <$> String.list_ascii_of_string s)
  | _ => Raise TypeError
  end.

(** [s.lower()], on ASCII. *)
Definition lower_ascii (a : Ascii.ascii) : Ascii.ascii :=
  let n := Ascii.nat_of_ascii a in
  if (65 <=? n) && (n <=? 90) then Ascii.ascii_of_nat (n + 32) else a.

Fixpoint lower (s : string) : string :=
  match s with
  | EmptyString => EmptyString
  | String a rest => String (lower_ascii a) (lower rest)
  end.

(** ** Field derivation (the first five statements of the loop body) *)

(** [c.get("name", {}).get("common", "Unknown")] *)
Definition name_of (c : json) : Res json :=
  d ← py_get c "name" (JObj []);
  py_get d "common" (JStr "Unknown").

(** [capital_list = c.get("capital") or []] *)
Definition capital_list_of (c : json) : Res json :=
  l ← py_get c "capital" JNull;
  mret (if truthy l then l else JArr []).

(** [capital = capital_list[0] if capital_list else "N/A"] *)
Definition capital_of (capital_list : json) : Res json :=
  if truthy capital_list then py_first capital_list else mret (JStr "N/A").

(** [c.get("population", "N/A")] *)
Definition population_of (c : json) : Res json :=
  py_get c "population" (JStr "N/A").

(** [c.get("capitalInfo", {}).get("latlng") or c.get("latlng")] *)
Definition latlng_of (c : json) : Res json :=
  info ← py_get c "capitalInfo" (JObj []);
  ll ← py_get info "latlng" JNull;
  if truthy ll then mret ll else py_get c "latlng" JNull.

(** The four locals [name], [capital], [population], [latlng]. *)
Record Fields : Type := mkFields {
  f_name : json;
  f_capital : json;
  f_population : json;
  f_latlng : json;
}.

Definition derive_fields (c : json) : Res Fields :=
  name ← name_of c;
  capital_list ← capital_list_of c;
  capital ← capital_of capital_list;
  population ← population_of c;
  latlng ← latlng_of c;
  mret (mkFields name capital population latlng).

(** ** The result item, the history record, the page *)

(** [weather_info = {"temp": ..., "description": ...}] *)
Record WeatherInfo : Type := mkWeather {
  temp : json;
  description : json;
}.

(** The dict appended to [results]; [weather] is [None] when absent. *)
Record ResultItem : Type := mkItem {
  country : json;
  capital : json;
  population : json;
  latlng : json;
  weather : option WeatherInfo;
}.

(** The document handed to [insert_one]; [searched_at] is
    [datetime.utcnow()] as a count of microseconds. *)
Record SearchHistoryRecord : Type := mkRecord {
  continent : string;
  searched_at : Z;
  results : list ResultItem;
}.

(** [ContinentForm(data)]: the form object is its (optional) bound data. *)
Record Form : Type := mkForm {
  form_data : option (list (string * string));
}.

(** The context dict given to [render]: [{"form", "error"?}],
    [{"form", "continent", "results"}] or [{"searches"}]. *)
Inductive Context : Type :=
| FormContext (form : Form) (error : option string)
| ResultsContext (form : Form) (continent : string) (results : list ResultItem)
| HistoryContext (searches : list SearchHistoryRecord).

(** [render(request, template, context)] *)
Record HttpResponse : Type := render {
  template : string;
  context : Context;
}.

(** ** The outside world *)

(** A [requests.Response]: its status code and what [.json()] makes of
    its body, [None] when the body does not decode. *)
Record Response : Type := mkResponse {
  status_code : Z;
  body : option json;
}.

(** What [requests.get] does: it raises, or it returns a response. *)
Inductive HttpResult : Type :=
| HttpRaises (e : exn)
| HttpResponds (resp : Response).

Record Request : Type := mkRequest {
  method : string;
  POST : list (string * string);
}.

(** Everything the handler reads from its environment.  [clean_continent]
    stands for [forms.ContinentForm] (not part of [views.py]): the
    cleaned ["continent"] of bound data when the form validates.
    [weather_api] answers the request made for the item at a position of
    the sample (the length of [results] when it is made) with the given
    [q].  [insert_one] is [None] when the driver accepts the document and
    the exception it raises otherwise; [find_fails] likewise for the
    history query. *)
Record World : Type := mkWorld {
  clean_continent : list (string * string) → option string;
  OPENWEATHER_API_KEY : option string;
  countries_api : string → HttpResult;
  weather_api : nat → json → HttpResult;
  utcnow : Z;
  insert_one : SearchHistoryRecord → option exn;
  find_fails : option exn;
}.

(** What the handler does to the outside world, in order. *)
Inductive Event : Type :=
| HttpGet (url : string) (params : list (string * json)) (timeout : Z)
| InsertOne (doc : SearchHistoryRecord)
| Find.

(** The mutable part: the random generator (the draws it still holds, one
    per call of [_randbelow]), the [search_history] collection, and the
    log of what was done. *)
Record State : Type := mkState {
  rng : list nat;
  history_collection : list SearchHistoryRecord;
  log : list Event;
}.

Definition set_rng (t : list nat) (st : State) : State :=
  mkState t (history_collection st) (log st).
Definition set_history (h : list SearchHistoryRecord) (st : State) : State :=
  mkState (rng st) h (log st).
Definition add_log (ev : Event) (st : State) : State :=
  mkState (rng st) (history_collection st) (log st ++ [ev]).

(** ** The monad of statements *)

Definition M (A : Type) : Type := State → Res A * State.

#[global] Instance M_ret : MRet M := λ A a st, (Ok a, st).
#[global] Instance M_bind : MBind M := λ A B f m st,
  match m st with
  | (Ok a, st') => f a st'
  | (Raise e, st') => (Raise e, st')
  | (Hang, st') => (Hang, st')
  end.

(** An expression evaluated inside a statement. *)
Definition eval {A} (r : Res A) : M A := λ st, (r, st).

Definition raise {A} (e : exn) : M A := eval (Raise e).

Definition emit (ev : Event) : M unit := λ st, (Ok tt, add_log ev st).

(** [try: body  except <class>: handler] *)
Definition try_except {A} (body : M A) (class : exn → bool) (handler : M A) : M A :=
  λ st,
    match body st with
    | (Raise e, st') => if class e then handler st' else (Raise e, st')
    | r => r
    end.

(** ** [random.sample] (CPython's [Lib/random.py]) *)

(** [self._randbelow(n)]: the next draw, reduced to [0 .. n-1]. *)
Definition randbelow (n : nat) : M nat := λ st,
  match rng st with
  | [] => (Hang, st)
  | r :: t => (Ok (r mod n), set_rng t st)
  end.

(** [l[i]] on a list *)
Definition list_index {A} (l : list A) (i : nat) : M A :=
  match l !! i with
  | Some x => mret x
  | None => raise IndexError
  end.

(** The smallest [e] with [4 ^ e >= m] (for [m <= 4 ^ fuel]). *)
Fixpoint ceil_log4 (fuel m : nat) : nat :=
  match fuel with
  | 0 => 0
  | S fuel' => if m <=? 1 then 0 else S (ceil_log4 fuel' ((m + 3) / 4))
  end.

(** [setsize = 21; if k > 5: setsize += 4 ** _ceil(_log(k * 3, 4))] *)
Definition setsize (k : nat) : nat :=
  if 5 <? k then 21 + 4 ^ ceil_log4 (k * 3) (k * 3) else 21.

(** [[
    pool = list(population)
    for i in range(k):
        j = randbelow(n - i)
        result[i] = pool[j]
        pool[j] = pool[n - i - 1]
    ]]
    [todo] counts the iterations left; [result] holds [result[:i]]. *)
Fixpoint sample_pool {A} (todo i n : nat) (pool result : list A) : M (list A) :=
  match todo with
  | 0 => mret result
  | S todo' =>
      j ← randbelow (n - i);
      x ← list_index pool j;
      y ← list_index pool (n - i - 1);
      sample_pool todo' (S i) n (<[j := y]> pool) (result ++ [x])
  end.

(** [[
    j = randbelow(n)
    while j in selected:
        j = randbelow(n)
    ]]
    by recursion on the draws left; with none left the loop hangs. *)
Fixpoint fresh_draw (n : nat) (selected : gset nat) (tape : list nat) : option (nat * list nat) :=
  match tape with
  | [] => None
  | r :: t => if decide (r mod n ∈ selected) then fresh_draw n selected t else Some (r mod n, t)
  end.

Definition fresh_index (n : nat) (selected : gset nat) : M nat := λ st,
  match fresh_draw n selected (rng st) with
  | Some (j, t) => (Ok j, set_rng t st)
  | None => (Hang, set_rng [] st)
  end.

(** [[
    selected = set()
    for i in range(k):
        <j = a fresh index>
        selected_add(j)
        result[i] = population[j]
    ]] *)
Fixpoint sample_set {A} (todo n : nat) (population : list A) (selected : gset nat)
    (result : list A) : M (list A) :=
  match todo with
  | 0 => mret result
  | S todo' =>
      j ← fresh_index n selected;
      x ← list_index population j;
      sample_set todo' n population ({[j]} ∪ selected) (result ++ [x])
  end.

(** [random.sample(population, k)] *)
Definition random_sample {A} (population : list A) (k : nat) : M (list A) :=
  let n := length population in
  if n <? k then raise ValueError
  else if n <=? setsize k then sample_pool k 0 n population []
  else sample_set k n population ∅ [].

(** ** [requests] and [pymongo] *)

Definition REST_COUNTRIES_URL (region : string) : string :=
  ("https://restcountries.com/v3.1/region/" ++ region)%string.

Definition OPENWEATHER_URL : string :=
  "https://api.openweathermap.org/data/2.5/weather".

(** [requests.get(url, params=params, timeout=10)], answered by [answer]. *)
Definition requests_get (answer : HttpResult) (url : string)
    (params : list (string * json)) : M Response :=
  _ ← emit (HttpGet url params 10);
  match answer with
  | HttpRaises e => raise e
  | HttpResponds resp => mret resp
  end.

(** [resp.raise_for_status()]: [HTTPError] on a 4xx or 5xx status. *)
Definition raise_for_status (resp : Response) : Res unit :=
  if ((400 <=? status_code resp) && (status_code resp <? 600))%Z
  then Raise HTTPError else Ok tt.

(** [resp.json()] *)
Definition resp_json (resp : Response) : Res json :=
  match body resp with
  | Some v => Ok v
  | None => Raise JSONDecodeError
  end.

(** [history_collection.insert_one(doc)] *)
Definition collection_insert_one (W : World) (doc : SearchHistoryRecord) : M unit :=
  _ ← emit (InsertOne doc);
  match insert_one W doc with
  | Some e => raise e
  | None => λ st, (Ok tt, set_history (history_collection st ++ [doc]) st)
  end.

(** [sort("searched_at", -1)]: newest first. *)
Definition newer_first (a b : SearchHistoryRecord) : Prop :=
  (searched_at b ≤ searched_at a)%Z.

#[global] Instance newer_first_dec : RelDecision newer_first.
Proof. intros a b. unfold newer_first. apply _. Defined.

(** [list(history_collection.find().sort("searched_at", -1).limit(20))] *)
Definition collection_find_sort_limit (W : World) : M (list SearchHistoryRecord) :=
  _ ← emit Find;
  match find_fails W with
  | Some e => raise e
  | None => λ st, (Ok (take 20 (merge_sort newer_first (history_collection st))), st)
  end.

(** ** The form *)

(** [ContinentForm(request.POST or None)] *)
Definition ContinentForm (request : Request) : Form :=
  mkForm (match POST request with [] => None | _ :: _ => Some (POST request) end).

(** [form.cleaned_data["continent"]] when [form.is_valid()]: the form is
    bound and its data validate. *)
Definition cleaned_continent (W : World) (form : Form) : option string :=
  data ← form_data form; clean_continent W data.

Definition is_valid (W : World) (form : Form) : bool :=
  bool_decide (is_Some (cleaned_continent W form)).

(** ** [home] *)

(** [bool(OPENWEATHER_API_KEY)] *)
Definition api_key_set (W : World) : bool :=
  match OPENWEATHER_API_KEY W with
  | Some key => negb (String.eqb key "")
  | None => false
  end.

(** [capital != "N/A" and OPENWEATHER_API_KEY] *)
Definition wants_weather (W : World) (capital : json) : bool :=
  negb (is_str "N/A" capital) && api_key_set W.

(** The [params] of the weather request. *)
Definition weather_params (W : World) (capital : json) : list (string * json) :=
  [("q", capital);
   ("appid", JStr (default "" (OPENWEATHER_API_KEY W)));
   ("units", JStr "metric")].

(** [[
    if w_resp.status_code == 200:
        w_json = w_resp.json()
        weather_info = {
            "temp": w_json.get("main", {}).get("temp"),
            "description": w_json.get("weather", [{}])[0].get("description"),
        }
    ]]
    The value of [weather_info] afterwards. *)
Definition read_weather (w_resp : Response) : Res (option WeatherInfo) :=
  if (status_code w_resp =? 200)%Z then
    w_json ← resp_json w_resp;
    main ← py_get w_json "main" (JObj []);
    temp ← py_get main "temp" JNull;
    weather_list ← py_get w_json "weather" (JArr [JObj []]);
    first ← py_first weather_list;
    description ← py_get first "description" JNull;
    mret (Some (mkWeather temp description))
  else mret None.

(** The weather part of the loop body, from [weather_info = None] to the
    end of the [try]; [pos] is [len(results)]. *)
Definition weather_lookup (W : World) (pos : nat) (capital : json) : M (option WeatherInfo) :=
  if wants_weather W capital then
    try_except
      (w_resp ← requests_get (weather_api W pos capital) OPENWEATHER_URL
                 (weather_params W capital);
       eval (read_weather w_resp))
      is_RequestException
      (mret None)
  else mret None.

(** One turn of [for c in sample]: the item appended to [results]. *)
Definition loop_body (W : World) (pos : nat) (c : json) : M ResultItem :=
  f ← eval (derive_fields c);
  weather_info ← weather_lookup W pos (f_capital f);
  mret (mkItem (f_name f) (f_capital f) (f_population f) (f_latlng f) weather_info).

(** [for c in sample: ...; results.append({...})] *)
Fixpoint for_each_country (W : World) (sample : list json) (results : list ResultItem)
    : M (list ResultItem) :=
  match sample with
  | [] => mret results
  | c :: rest =>
      item ← loop_body W (length results) c;
      for_each_country W rest (results ++ [item])
  end.

Definition error_page (form : Form) (msg : string) : HttpResponse :=
  render "continent_form.html" (FormContext form (Some msg)).

(** Step 1, the first [try]: the response, or the page returned from the
    [except] branch. *)
Definition fetch_countries (W : World) (form : Form) (region_param : string)
    : M (Response + HttpResponse) :=
  try_except
    (resp ← requests_get (countries_api W (REST_COUNTRIES_URL region_param))
              (REST_COUNTRIES_URL region_param) [];
     _ ← eval (raise_for_status resp);
     mret (inl resp))
    is_RequestException
    (mret (inr (error_page form "Failed to fetch countries data."))).

(** Step 2, first line:
    [random.sample(countries_data, min(5, len(countries_data)))] *)
Definition select_sample (countries_data : json) : M (list json) :=
  n ← eval (py_len countries_data);
  population ← eval (py_sequence countries_data);
  random_sample population (min 5 n).

(** Step 3: the [try] around [insert_one]. *)
Definition save_history (W : World) (continent_name : string) (results : list ResultItem)
    : M unit :=
  try_except
    (collection_insert_one W (mkRecord continent_name (utcnow W) results))
    is_Exception
    (mret tt).

(** The body of [if request.method == "POST" and form.is_valid():]. *)
Definition search (W : World) (form : Form) (continent_name : string) : M HttpResponse :=
  let region_param := lower continent_name in
  fetched ← fetch_countries W form region_param;
  match fetched with
  | inr page => mret page
  | inl resp =>
      countries_data ← eval (resp_json resp);
      if negb (truthy countries_data) then
        mret (error_page form "No countries found for this continent.")
      else
        sample ← select_sample countries_data;
        results ← for_each_country W sample [];
        _ ← save_history W continent_name results;
        mret (render "search_results.html" (ResultsContext form continent_name results))
  end.

Definition home (W : World) (request : Request) : M HttpResponse :=
  let form := ContinentForm request in
  if String.eqb (method request) "POST" && is_valid W form then
    search W form (default "" (cleaned_continent W form))
  else
    mret (render "continent_form.html" (FormContext form None)).

(** ** [history_view] *)

Definition history_view (W : World) (request : Request) : M HttpResponse :=
  searches ← try_except (collection_find_sort_limit W) is_Exception (mret []);
  mret (render "history.html" (HistoryContext searches)).

(** ** Vocabulary of the statements *)

(** The events a run from [st] to [st'] added to the log, and the
    documents among them that were handed to [insert_one]. *)
Definition issued (st st' : State) : list Event :=
  drop (length (log st)) (log st').

Definition inserts (evs : list Event) : list SearchHistoryRecord :=
  evs ≫= λ ev, match ev with InsertOne doc => [doc] | _ => [] end.

Definition is_http (ev : Event) : Prop :=
  match ev with HttpGet _ _ _ => True | _ => False end.

Definition add_logs (evs : list Event) (st : State) : State :=
  mkState (rng st) (history_collection st) (log st ++ evs).

(** From [st] to [st'] the collection is untouched and only HTTP requests
    were logged. *)
Definition only_http (st st' : State) : Prop :=
  history_collection st' = history_collection st
  ∧ ∃ evs, log st' = log st ++ evs ∧ Forall is_http evs.

Definition quiet {A} (m : M A) : Prop := ∀ st, only_http st (snd (m st)).

(** [sample] takes its items from pairwise distinct positions of
    [population]. *)
Definition drawn_from {A} (sample population : list A) : Prop :=
  ∃ idxs : list nat, NoDup idxs ∧ Forall2 (λ x i, population !! i = Some x) sample idxs.

(** The values [_randbelow(n)] takes on the draws of a tape. *)
Definition residues (n : nat) (tape : list nat) : gset nat :=
  list_to_set ((λ r, r mod n) <$> tape).

(** The generator holds enough draws for [random.sample] to pick [k] of
    [n]: [k] draws when it shuffles a pool, [k] different values when it
    rejects repeats. *)
Definition enough_draws (n k : nat) (tape : list nat) : Prop :=
  if decide (n ≤ setsize k) then k ≤ length tape else k ≤ size (residues n tape).

(** Worlds that differ in one collaborator. *)
Definition with_weather (w : nat → json → HttpResult) (W : World) : World :=
  mkWorld (clean_continent W) (OPENWEATHER_API_KEY W) (countries_api W) w
          (utcnow W) (insert_one W) (find_fails W).

Definition with_insert (ins : SearchHistoryRecord → option exn) (W : World) : World :=
  mkWorld (clean_continent W) (OPENWEATHER_API_KEY W) (countries_api W) (weather_api W)
          (utcnow W) ins (find_fails W).

(** The answer with status 200 and a body that decodes to [v]. *)
Definition responds_200 (v : json) : HttpResult :=
  HttpResponds (mkResponse 200 (Some v)).

(** The country lookup failed: [requests.get] raised a
    [RequestException], or [raise_for_status] did. *)
Definition lookup_fails (answer : HttpResult) : Prop :=
  match answer with
  | HttpRaises e => is_RequestException e = true
  | HttpResponds resp => (400 ≤ status_code resp < 600)%Z
  end.

(** The same with "non-2xx" for the status. *)
Definition lookup_fails_non_2xx (answer : HttpResult) : Prop :=
  match answer with
  | HttpRaises e => is_RequestException e = true
  | HttpResponds resp => ¬ (200 ≤ status_code resp < 300)%Z
  end.

(** The weather call failed: a transport error or timeout, or a status
    other than 200. *)
Definition weather_fails (answer : HttpResult) : Prop :=
  match answer with
  | HttpRaises e => is_RequestException e = true
  | HttpResponds resp => status_code resp ≠ 200%Z
  end.

(** What [except requests.RequestException: pass] leaves of a result. *)
Definition swallow {A} (r : Res (option A)) : Res (option A) :=
  match r with
  | Raise e => if is_RequestException e then Ok None else Raise e
  | _ => r
  end.

(** The value of [weather_info] at the end of a turn of the loop. *)
Definition weather_of (W : World) (pos : nat) (capital : json) : Res (option WeatherInfo) :=
  if wants_weather W capital then
    swallow match weather_api W pos capital with
            | HttpRaises e => Raise e
            | HttpResponds w_resp => read_weather w_resp
            end
  else Ok None.

(** The item a turn of the loop appends, and the request it issues. *)
Definition item_of (W : World) (pos : nat) (c : json) : Res ResultItem :=
  f ← derive_fields c;
  weather_info ← weather_of W pos (f_capital f);
  mret (mkItem (f_name f) (f_capital f) (f_population f) (f_latlng f) weather_info).

Definition weather_events (W : World) (c : json) : list Event :=
  match derive_fields c with
  | Ok f =>
      if wants_weather W (f_capital f)
      then [HttpGet OPENWEATHER_URL (weather_params W (f_capital f)) 10]
      else []
  | _ => []
  end.

(** The item without its weather. *)
Definition without_weather (item : ResultItem) : ResultItem :=
  mkItem (country item) (capital item) (population item) (latlng item) None.

(** *** The field derivation in the words of the specification *)

(** "name: common name field; if entirely absent, use sentinel Unknown" *)
Definition spec_name (fields : list (string * json)) : json :=
  match dict_get "name" fields with
  | Some (JObj name) => default (JStr "Unknown") (dict_get "common" name)
  | _ => JStr "Unknown"
  end.

(** "capital: first element of the capital list if present and
    non-empty; otherwise sentinel N/A" *)
Definition spec_capital (fields : list (string * json)) : json :=
  match dict_get "capital" fields with
  | Some (JArr (first :: _)) => first
  | _ => JStr "N/A"
  end.

(** "population: as given, or sentinel N/A if absent" *)
Definition spec_population (fields : list (string * json)) : json :=
  default (JStr "N/A") (dict_get "population" fields).

(** "coordinates: prefer a capital-specific lat/lng pair; if absent, fall
    back to the record's general lat/lng; if both absent, coordinates are
    absent" *)
Definition capital_latlng (fields : list (string * json)) : option json :=
  match dict_get "capitalInfo" fields with
  | Some (JObj info) => dict_get "latlng" info
  | _ => None
  end.

Definition spec_coordinates (fields : list (string * json)) : json :=
  match capital_latlng fields with
  | Some coordinates => coordinates
  | None => default JNull (dict_get "latlng" fields)
  end.

(** A country object shaped as the data model has it: [name] and
    [capitalInfo], when present, are objects; [capital], when present, is
    a list; the capital-specific coordinates, when present, are a pair. *)
Definition absent_or (P : json → bool) (o : option json) : bool :=
  match o with
  | Some v => P v
  | None => true
  end.

Definition is_object (v : json) : bool := match v with JObj _ => true | _ => false end.
Definition is_list (v : json) : bool := match v with JArr _ => true | _ => false end.
Definition is_pair (v : json) : bool := match v with JArr [_; _] => true | _ => false end.

Definition country_shape (fields : list (string * json)) : bool :=
  absent_or is_object (dict_get "name" fields)
  && absent_or is_list (dict_get "capital" fields)
  && absent_or is_object (dict_get "capitalInfo" fields)
  && absent_or is_pair (capital_latlng fields).

(** *** The weather body *)

(** [main.temp] and [weather[0].description] of a body, where it has them. *)
Definition main_temp (fields : list (string * json)) : option json :=
  match dict_get "main" fields with
  | Some (JObj main) => dict_get "temp" main
  | _ => None
  end.

Definition first_description (fields : list (string * json)) : option json :=
  match dict_get "weather" fields with
  | Some (JArr (JObj first :: _)) => dict_get "description" first
  | _ => None
  end.

(** A body in which [main], when present, is an object and [weather],
    when present, is a list whose first entry is an object. *)
Definition is_entries (v : json) : bool :=
  match v with JArr (JObj _ :: _) => true | _ => false end.

Definition weather_shape (fields : list (string * json)) : bool :=
  absent_or is_object (dict_get "main" fields)
  && absent_or is_entries (dict_get "weather" fields).

(** The [results] are built, position by position, from pairwise
    distinct entries of [countries]. *)
Definition built_from (W : World) (countries : list json) (results : list ResultItem) : Prop :=
  ∃ idxs : list nat,
    NoDup idxs
    ∧ length idxs = length results
    ∧ ∀ k item, results !! k = Some item →
        ∃ i c, idxs !! k = Some i ∧ countries !! i = Some c ∧ item_of W k c = Ok item.

(** ** Sample data *)

Definition france_fields : list (string * json) :=
  [("name", JObj [("common", JStr "France")]);
   ("capital", JArr [JStr "Paris"]);
   ("population", JInt 67391582);
   ("capitalInfo", JObj [("latlng", JArr [JFloat 4887 (-2); JFloat 233 (-2)])]);
   ("latlng", JArr [JInt 46; JInt 2])].

Definition france : json := JObj france_fields.

Definition iceland : json :=
  JObj [("name", JObj [("common", JStr "Iceland")]);
        ("capital", JArr [JStr "Reykjavik"]);
        ("population", JInt 366425);
        ("latlng", JArr [JInt 65; JInt (-18)])].

(** A territory without a capital. *)
Definition bouvet : json :=
  JObj [("name", JObj [("common", JStr "Bouvet Island")]);
        ("capital", JArr []);
        ("latlng", JArr [JFloat (-5443) (-2); JFloat 34 (-1)])].

Definition clear_sky : json :=
  JObj [("main", JObj [("temp", JFloat 185 (-1))]);
        ("weather", JArr [JObj [("description", JStr "clear sky")]])].

(** A 200 body without [main] and with a first entry that has no
    [description]. *)
Definition bare_weather : json :=
  JObj [("weather", JArr [JObj [("id", JInt 800)]])].

(** A 200 body whose [weather] list is empty. *)
Definition no_conditions : json :=
  JObj [("main", JObj [("temp", JFloat 185 (-1))]); ("weather", JArr [])].

Definition demo_clean (data : list (string * string)) : option string :=
  match data with
  | [("continent", c)] =>
      if bool_decide (c ∈ ["Africa"; "Americas"; "Asia"; "Europe"; "Oceania"])
      then Some c else None
  | _ => None
  end.

Definition demo_world : World := {|
  clean_continent := demo_clean;
  OPENWEATHER_API_KEY := Some "secret";
  countries_api := λ _, responds_200 (JArr [france; iceland; bouvet]);
  weather_api := λ _ _, responds_200 clear_sky;
  utcnow := 1700000000000000;
  insert_one := λ _, None;
  find_fails := None;
|}.

Definition with_countries (a : HttpResult) (W : World) : World :=
  mkWorld (clean_continent W) (OPENWEATHER_API_KEY W) (λ _, a) (weather_api W)
          (utcnow W) (insert_one W) (find_fails W).

Definition demo_request : Request := mkRequest "POST" [("continent", "Europe")].

Definition demo_state : State := mkState [3; 1; 4; 1; 5; 9; 2; 6] [] [].

(** Twenty-three countries named "A" to "W", with nothing but a name. *)
Definition named (i : nat) : json :=
  JObj [("name", JObj [("common", JStr (String (Ascii.ascii_of_nat (65 + i)) ""))])].

Definition atlas : list json := named <$> seq 0 23.

(** ** Further vocabulary *)

#[global] Instance is_http_dec ev : Decision (is_http ev).
Proof. destruct ev; simpl; apply _. Defined.

(** A statement that leaves the collection and the log as they are. *)
Definition silent {A} (m : M A) : Prop :=
  ∀ st,
    log (snd (m st)) = log st
    ∧ history_collection (snd (m st)) = history_collection st.

(** A truthy value that has no [len] or is no sequence: a dict, a
    number, [True]. *)
Definition not_a_sequence (v : json) : bool :=
  match v with
  | JObj _ | JInt _ | JFloat _ _ | JBool _ | JNull => true
  | JStr _ | JArr _ => false
  end.

(** An entry of the country list shaped as the data model has it. *)
Definition is_country (c : json) : bool :=
  match c with
  | JObj fields => country_shape fields
  | _ => false
  end.

(** A weather answer that is a failure, or a 200 whose body is an object
    of the expected shape. *)
Definition weather_answer_shaped (answer : HttpResult) : bool :=
  match answer with
  | HttpRaises e => is_RequestException e
  | HttpResponds w_resp =>
      if (status_code w_resp =? 200)%Z then
        match body w_resp with
        | Some (JObj fields) => weather_shape fields
        | _ => false
        end
      else true
  end.

(** The exceptions of attribute access and subscripting, [IndexError]
    apart. *)
Definition is_lookup_error (e : exn) : bool :=
  match e with
  | AttributeError | TypeError | KeyError => true
  | _ => false
  end.

(** The weather request a rendered item stands for: one request for its
    capital when that is not "N/A" and the key is set, none otherwise. *)
Definition weather_request (W : World) (item : ResultItem) : list Event :=
  if wants_weather W (capital item)
  then [HttpGet OPENWEATHER_URL (weather_params W (capital item)) 10]
  else [].

(** * Properties *)

(** ** Running statements *)

Section monad_facts.
Context {A B : Type}.

Lemma bind_Ok (m : M A) (f : A → M B) st a st' :
  m st = (Ok a, st') → (m ≫= f) st = f a st'.
Proof. intros H. unfold mbind, M_bind. by rewrite H. Qed.

Lemma bind_Raise (m : M A) (f : A → M B) st e st' :
  m st = (Raise e, st') → (m ≫= f) st = (Raise e, st').
Proof. intros H. unfold mbind, M_bind. by rewrite H. Qed.

Lemma bind_Hang (m : M A) (f : A → M B) st st' :
  m st = (Hang, st') → (m ≫= f) st = (Hang, st').
Proof. intros H. unfold mbind, M_bind. by rewrite H. Qed.
End monad_facts.

Lemma list_index_Some {A} (l : list A) i x st :
  l !! i = Some x → list_index l i st = (Ok x, st).
Proof. intros H. unfold list_index. by rewrite H. Qed.

Lemma randbelow_cons n r t st :
  rng st = r :: t → randbelow n st = (Ok (r mod n), set_rng t st).
Proof. intros H. unfold randbelow. by rewrite H. Qed.

(** Moving the last live slot of the pool into the vacancy keeps the
    live slots and the picked item a rearrangement of the live slots. *)
Lemma pool_step {A} (pool : list A) j m x y :
  j ≤ m → pool !! j = Some x → pool !! m = Some y →
  take m (<[j := y]> pool) ++ [x] ≡ₚ take (S m) pool.
Proof.
  intros Hj Hx Hy. rewrite (take_S_r _ _ _ Hy).
  destruct (decide (j = m)) as [->|Hne].
  - rewrite take_insert_ge by lia. by simplify_eq.
  - rewrite take_insert_lt by lia.
    assert (Hl : take m pool !! j = Some x) by (rewrite lookup_take_lt by lia; done).
    rewrite insert_take_drop by (apply lookup_lt_Some in Hl; done).
    rewrite <- (take_drop_middle _ _ _ Hl) at 3.
    rewrite <- !app_assoc. simpl. apply Permutation_app_head.
    generalize (drop (S j) (take m pool)). intros rest.
    rewrite <- (Permutation_cons_append rest x), <- (Permutation_cons_append rest y).
    apply perm_swap.
Qed.

Lemma sample_pool_spec {A} todo : ∀ i n (pool result : list A) st,
  length pool = n → i + todo ≤ n → todo ≤ length (rng st) →
  ∃ result' pool',
    sample_pool todo i n pool result st
      = (Ok result', set_rng (drop todo (rng st)) st)
    ∧ length result' = length result + todo
    ∧ result' ++ take (n - i - todo) pool' ≡ₚ result ++ take (n - i) pool.
Proof.
  induction todo as [|todo IH]; intros i n pool result st Hlen Hi Htape.
  - exists result, pool. simpl. split_and!.
    + unfold mret, M_ret. destruct st; done.
    + lia.
    + by replace (n - i - 0) with (n - i) by lia.
  - destruct (rng st) as [|r t] eqn:Hrng; [simpl in Htape; lia|].
    assert (Hj : r mod (n - i) < n - i) by (apply Nat.mod_upper_bound; lia).
    pose proof (randbelow_cons (n - i) r t st Hrng) as Hdraw.
    revert Hj Hdraw. generalize (r mod (n - i)). intros j Hj Hdraw.
    destruct (lookup_lt_is_Some_2 pool j) as [x Hx]; [lia|].
    destruct (lookup_lt_is_Some_2 pool (n - i - 1)) as [y Hy]; [lia|].
    destruct (IH (S i) n (<[j := y]> pool) (result ++ [x]) (set_rng t st))
      as (result' & pool' & Hrun & Hlen' & Hperm).
    { by rewrite length_insert. } { lia. } { simpl in *. lia. }
    exists result', pool'. split_and!.
    + simpl. erewrite bind_Ok by exact Hdraw.
      erewrite bind_Ok by (by apply list_index_Some).
      erewrite bind_Ok by (by apply list_index_Some).
      rewrite Hrun. simpl. done.
    + rewrite Hlen', length_app. simpl. lia.
    + replace (n - i - S todo) with (n - S i - todo) by lia.
      rewrite Hperm. rewrite <- app_assoc. apply Permutation_app_head.
      replace (n - i) with (S (n - S i)) by lia.
      rewrite <- (pool_step pool j (n - S i) x y); [|lia|done|].
      * apply Permutation_app_comm.
      * by replace (n - S i) with (n - i - 1) by lia.
Qed.

Lemma perm_drawn_from {A} (sample rest population : list A) :
  sample ++ rest ≡ₚ population → drawn_from sample population.
Proof.
  intros Hperm. apply Permutation_inj in Hperm as (_ & f & Hinj & Hf).
  exists (f <$> seq 0 (length sample)). split.
  - apply NoDup_fmap_2; [done|]. apply NoDup_seq.
  - apply Forall2_same_length_lookup. split.
    + by rewrite length_fmap, length_seq.
    + intros i x fi Hx Hfi.
      rewrite list_lookup_fmap in Hfi.
      assert (Hi : i < length sample) by (by eapply lookup_lt_Some).
      rewrite lookup_seq_lt in Hfi by done. simpl in Hfi. simplify_eq.
      rewrite <- Hf. by rewrite lookup_app_l.
Qed.

Lemma residues_cons n r t : residues n (r :: t) = {[r mod n]} ∪ residues n t.
Proof. done. Qed.

Lemma fresh_draw_spec n selected tape :
  0 < n → 0 < size (residues n tape ∖ selected) →
  ∃ j t, fresh_draw n selected tape = Some (j, t)
    ∧ j ∉ selected ∧ j < n
    ∧ size (residues n tape ∖ selected) ≤ S (size (residues n t ∖ ({[j]} ∪ selected))).
Proof.
  intros Hn. induction tape as [|r t IH]; intros Hsize.
  - exfalso. unfold residues in Hsize. simpl in Hsize.
    rewrite difference_disjoint_L, size_empty in Hsize by set_solver. lia.
  - simpl. rewrite residues_cons in *. case_decide as Hin.
    + assert (Heq : ({[r mod n]} ∪ residues n t) ∖ selected = residues n t ∖ selected)
        by set_solver.
      rewrite Heq in *. by apply IH.
    + exists (r mod n), t. split_and!; [done|done|by apply Nat.mod_upper_bound; lia|].
      transitivity (size ({[r mod n]} ∪ residues n t ∖ ({[r mod n]} ∪ selected))).
      * apply subseteq_size. intros x. destruct (decide (x = r mod n)); set_solver.
      * rewrite size_union by set_solver. by rewrite size_singleton.
Qed.

Lemma sample_set_spec {A} todo : ∀ n (population : list A) selected result st js,
  0 < n → n = length population →
  todo ≤ size (residues n (rng st) ∖ selected) →
  NoDup js → (∀ j, j ∈ js ↔ j ∈ selected) →
  Forall2 (λ x j, population !! j = Some x) result js →
  ∃ result' js' t,
    sample_set todo n population selected result st = (Ok result', set_rng t st)
    ∧ length result' = length result + todo
    ∧ NoDup js'
    ∧ Forall2 (λ x j, population !! j = Some x) result' js'.
Proof.
  induction todo as [|todo IH]; intros n population selected result st js Hn Hlen Hsize Hnd Hsel Hres.
  - exists result, js, (rng st). simpl. split_and!; [by destruct st|lia|done|done].
  - destruct (fresh_draw_spec n selected (rng st)) as (j & t & Hdraw & Hfresh & Hj & Hsz);
      [done|lia|].
    destruct (lookup_lt_is_Some_2 population j) as [x Hx]; [lia|].
    destruct (IH n population ({[j]} ∪ selected) (result ++ [x]) (set_rng t st) (js ++ [j]))
      as (result' & js' & t' & Hrun & Hlen' & Hnd' & Hres'); try done.
    { simpl. lia. }
    { apply NoDup_app. split_and!; [done| |apply NoDup_singleton].
      intros y Hy ->%list_elem_of_singleton. apply Hfresh. by apply Hsel. }
    { intros y. rewrite elem_of_app, list_elem_of_singleton, elem_of_union, elem_of_singleton.
      rewrite Hsel. tauto. }
    { apply Forall2_app; [done|]. by constructor. }
    exists result', js', t'. split_and!; [|rewrite Hlen', length_app; simpl; lia|done|done].
    simpl. erewrite bind_Ok; last first.
    { unfold fresh_index. by rewrite Hdraw. }
    erewrite bind_Ok by (by apply list_index_Some).
    rewrite Hrun. by destruct st.
Qed.

Lemma random_sample_spec {A} (population : list A) k st :
  k ≤ length population → enough_draws (length population) k (rng st) →
  ∃ sample t,
    random_sample population k st = (Ok sample, set_rng t st)
    ∧ length sample = k
    ∧ drawn_from sample population.
Proof.
  intros Hk Hdraws. unfold random_sample, enough_draws in *.
  destruct (Nat.ltb_spec (length population) k) as [?|_]; [lia|].
  case_decide as Hpool.
  - destruct (Nat.leb_spec (length population) (setsize k)) as [_|?]; [|lia].
    destruct (sample_pool_spec k 0 (length population) population [] st)
      as (sample & pool' & Hrun & Hlen & Hperm); [done|lia|done|].
    exists sample, (drop k (rng st)). split_and!; [done|done|].
    apply (perm_drawn_from _ (take (length population - 0 - k) pool')).
    rewrite Hperm. simpl. by rewrite Nat.sub_0_r, firstn_all.
  - destruct (Nat.leb_spec (length population) (setsize k)) as [?|Hlt]; [lia|].
    destruct (sample_set_spec k (length population) population ∅ [] st [])
      as (sample & js & t & Hrun & Hlen & Hnd & Hres); try done.
    { unfold setsize in Hlt. destruct (5 <? k); lia. }
    { by rewrite difference_empty_L. }
    { constructor. }
    { set_solver. }
    exists sample, t. split_and!; [done|done|]. by exists js.
Qed.

(** ** The loop body *)

Lemma add_logs_nil st : add_logs [] st = st.
Proof. destruct st. unfold add_logs. simpl. by rewrite app_nil_r. Qed.

Lemma add_logs_app evs1 evs2 st : add_logs evs2 (add_logs evs1 st) = add_logs (evs1 ++ evs2) st.
Proof. unfold add_logs. simpl. by rewrite app_assoc. Qed.

Lemma weather_lookup_run W pos capital st :
  weather_lookup W pos capital st
  = (weather_of W pos capital,
     if wants_weather W capital
     then add_logs [HttpGet OPENWEATHER_URL (weather_params W capital) 10] st
     else st).
Proof.
  unfold weather_lookup, weather_of. destruct (wants_weather W capital); [|done].
  unfold try_except, requests_get, mbind, M_bind, emit, raise, eval, mret, M_ret. simpl.
  destruct (weather_api W pos capital) as [e|w_resp]; simpl.
  - by destruct (is_RequestException e).
  - destruct (read_weather w_resp) as [w|e|]; simpl; try done.
    by destruct (is_RequestException e).
Qed.

Lemma loop_body_run W pos c st :
  loop_body W pos c st = (item_of W pos c, add_logs (weather_events W c) st).
Proof.
  unfold loop_body, item_of, weather_events.
  unfold mbind at 1. unfold M_bind, eval.
  destruct (derive_fields c) as [f|e|]; simpl; try by rewrite add_logs_nil.
  unfold mbind, M_bind. rewrite weather_lookup_run.
  destruct (weather_of W pos (f_capital f)) as [w|e|]; simpl;
    destruct (wants_weather W (f_capital f)); by rewrite ?add_logs_nil.
Qed.

(** A completed run of the loop, item by item. *)
Lemma for_each_country_Ok W sample : ∀ acc st results st',
  for_each_country W sample acc st = (Ok results, st') ↔
  ∃ items,
    results = acc ++ items
    ∧ Forall2 (λ c item, True) sample items
    ∧ (∀ k c, sample !! k = Some c →
         ∃ item, items !! k = Some item ∧ item_of W (length acc + k) c = Ok item)
    ∧ st' = add_logs (sample ≫= weather_events W) st.
Proof.
  induction sample as [|c rest IH]; intros acc st results st'.
  - simpl. unfold mret, M_ret. rewrite add_logs_nil. split.
    + intros [= <- <-]. exists []. rewrite app_nil_r. split_and!; try done.
    + intros (items & -> & Hlen & _ & ->). apply Forall2_nil_inv_l in Hlen as ->.
      by rewrite app_nil_r.
  - simpl. unfold mbind at 1. unfold M_bind. rewrite loop_body_run.
    destruct (item_of W (length acc) c) as [item|e|] eqn:Hitem.
    + rewrite IH. split.
      * intros (items & -> & Hlen & Hitems & ->).
        exists (item :: items). split_and!.
        -- by rewrite <- app_assoc.
        -- by constructor.
        -- intros [|k] c' Hc'; simpl in *.
           ++ simplify_eq. exists item. by rewrite Nat.add_0_r.
           ++ destruct (Hitems k c' Hc') as (item' & ? & Hi).
              exists item'. split; [done|].
              rewrite length_app in Hi. simpl in Hi.
              by replace (length acc + S k) with (length acc + 1 + k) by lia.
        -- by rewrite add_logs_app.
      * intros (items & -> & Hlen & Hitems & ->).
        apply Forall2_cons_inv_l in Hlen as (item' & items' & _ & Hlen & ->).
        destruct (Hitems 0 c eq_refl) as (item0 & [= <-] & Hi0).
        rewrite Nat.add_0_r, Hitem in Hi0. simplify_eq.
        exists items'. split_and!.
        -- by rewrite <- app_assoc.
        -- done.
        -- intros k c' Hc'. destruct (Hitems (S k) c' Hc') as (it & ? & Hi).
           exists it. split; [done|]. rewrite length_app. simpl.
           by replace (length acc + 1 + k) with (length acc + S k) by lia.
        -- by rewrite add_logs_app.
    + split; [done|]. intros (items & -> & Hlen & Hitems & _).
      destruct (Hitems 0 c eq_refl) as (item0 & _ & Hi0).
      rewrite Nat.add_0_r in Hi0. congruence.
    + split; [done|]. intros (items & -> & Hlen & Hitems & _).
      destruct (Hitems 0 c eq_refl) as (item0 & _ & Hi0).
      rewrite Nat.add_0_r in Hi0. congruence.
Qed.

(** ** What a statement can do to the collection and the log *)

Lemma only_http_refl st : only_http st st.
Proof. split; [done|]. exists []. by rewrite app_nil_r. Qed.

Lemma only_http_trans st1 st2 st3 :
  only_http st1 st2 → only_http st2 st3 → only_http st1 st3.
Proof.
  intros [Hh1 (evs1 & Hl1 & Hf1)] [Hh2 (evs2 & Hl2 & Hf2)]. split; [congruence|].
  exists (evs1 ++ evs2). split.
  - by rewrite Hl2, Hl1, app_assoc.
  - by apply Forall_app.
Qed.

Lemma only_http_set_rng t st : only_http st (set_rng t st).
Proof. split; [done|]. exists []. simpl. by rewrite app_nil_r. Qed.

Lemma only_http_add_logs evs st : Forall is_http evs → only_http st (add_logs evs st).
Proof. intros H. split; [done|]. by exists evs. Qed.

Lemma quiet_ret {A} (a : A) : quiet (mret a).
Proof. intros st. apply only_http_refl. Qed.

Lemma quiet_eval {A} (r : Res A) : quiet (eval r).
Proof. intros st. apply only_http_refl. Qed.

Lemma quiet_raise {A} e : quiet (raise (A := A) e).
Proof. intros st. apply only_http_refl. Qed.

Lemma quiet_bind {A B} (m : M A) (f : A → M B) :
  quiet m → (∀ a, quiet (f a)) → quiet (m ≫= f).
Proof.
  intros Hm Hf st. unfold mbind, M_bind. specialize (Hm st).
  destruct (m st) as [[a|e|] st1]; simpl in *; try done.
  eapply only_http_trans; [done|]. apply Hf.
Qed.

Lemma quiet_try {A} (body handler : M A) class :
  quiet body → quiet handler → quiet (try_except body class handler).
Proof.
  intros Hb Hh st. unfold try_except. specialize (Hb st).
  destruct (body st) as [[a|e|] st1]; simpl in *; try done.
  destruct (class e); [|done].
  eapply only_http_trans; [done|]. apply Hh.
Qed.

Lemma quiet_requests_get answer url params : quiet (requests_get answer url params).
Proof.
  apply quiet_bind.
  - intros st. apply (only_http_add_logs [_]). by repeat constructor.
  - intros _. destruct answer; [apply quiet_raise|apply quiet_ret].
Qed.

Lemma quiet_randbelow n : quiet (randbelow n).
Proof.
  intros st. unfold randbelow. destruct (rng st); simpl.
  - apply only_http_refl.
  - apply only_http_set_rng.
Qed.

Lemma quiet_fresh_index n selected : quiet (fresh_index n selected).
Proof.
  intros st. unfold fresh_index.
  destruct (fresh_draw n selected (rng st)) as [[j t]|]; apply only_http_set_rng.
Qed.

Lemma quiet_list_index {A} (l : list A) i : quiet (list_index l i).
Proof. unfold list_index. destruct (l !! i); [apply quiet_ret|apply quiet_raise]. Qed.

Lemma quiet_sample_pool {A} todo : ∀ i n (pool result : list A),
  quiet (sample_pool todo i n pool result).
Proof.
  induction todo as [|todo IH]; intros; simpl; [apply quiet_ret|].
  repeat (apply quiet_bind; [auto using quiet_randbelow, quiet_list_index|intros ?]).
  apply IH.
Qed.

Lemma quiet_sample_set {A} todo : ∀ n (population : list A) selected result,
  quiet (sample_set todo n population selected result).
Proof.
  induction todo as [|todo IH]; intros; simpl; [apply quiet_ret|].
  repeat (apply quiet_bind; [auto using quiet_fresh_index, quiet_list_index|intros ?]).
  apply IH.
Qed.

Lemma quiet_random_sample {A} (population : list A) k : quiet (random_sample population k).
Proof.
  unfold random_sample. destruct (_ <? _); [apply quiet_raise|].
  destruct (_ <=? _); [apply quiet_sample_pool|apply quiet_sample_set].
Qed.

Lemma quiet_select_sample countries_data : quiet (select_sample countries_data).
Proof.
  unfold select_sample.
  repeat (apply quiet_bind; [apply quiet_eval|intros ?]).
  apply quiet_random_sample.
Qed.

Lemma quiet_fetch_countries W form region : quiet (fetch_countries W form region).
Proof.
  unfold fetch_countries. apply quiet_try; [|apply quiet_ret].
  apply quiet_bind; [apply quiet_requests_get|intros ?].
  apply quiet_bind; [apply quiet_eval|intros ?]. apply quiet_ret.
Qed.

Lemma quiet_for_each_country W sample : ∀ results, quiet (for_each_country W sample results).
Proof.
  induction sample as [|c rest IH]; intros results; simpl; [apply quiet_ret|].
  apply quiet_bind; [|intros ?; apply IH].
  intros st. rewrite loop_body_run. simpl. apply only_http_add_logs.
  unfold weather_events. destruct (derive_fields c); try done.
  destruct (wants_weather _ _); by repeat constructor.
Qed.

Lemma issued_app st st' evs : log st' = log st ++ evs → issued st st' = evs.
Proof. intros H. unfold issued. rewrite H. by rewrite drop_app_length. Qed.

Lemma inserts_app evs1 evs2 : inserts (evs1 ++ evs2) = inserts evs1 ++ inserts evs2.
Proof. unfold inserts. apply bind_app. Qed.

Lemma inserts_http evs : Forall is_http evs → inserts evs = [].
Proof.
  induction 1 as [|ev evs Hev _ IH]; [done|].
  change (ev :: evs) with ([ev] ++ evs). rewrite inserts_app, IH.
  by destruct ev.
Qed.

Lemma only_http_inserts st st' : only_http st st' → inserts (issued st st') = [].
Proof. intros [_ (evs & Hl & Hf)]. rewrite (issued_app _ _ _ Hl). by apply inserts_http. Qed.

Lemma save_history_run W continent_name results st :
  let doc := mkRecord continent_name (utcnow W) results in
  save_history W continent_name results st
  = (Ok tt,
     match insert_one W doc with
     | None => set_history (history_collection st ++ [doc]) (add_logs [InsertOne doc] st)
     | Some _ => add_logs [InsertOne doc] st
     end).
Proof.
  simpl. unfold save_history, try_except, collection_insert_one, mbind, M_bind, emit. simpl.
  by destruct (insert_one W _).
Qed.

(** ** The steps of [search] *)

Lemma fetch_countries_run W form region st :
  fetch_countries W form region st
  = (match countries_api W (REST_COUNTRIES_URL region) with
     | HttpRaises e =>
         if is_RequestException e
         then Ok (inr (error_page form "Failed to fetch countries data."))
         else Raise e
     | HttpResponds resp =>
         match raise_for_status resp with
         | Ok _ => Ok (inl resp)
         | _ => Ok (inr (error_page form "Failed to fetch countries data."))
         end
     end,
     add_logs [HttpGet (REST_COUNTRIES_URL region) [] 10] st).
Proof.
  unfold fetch_countries, try_except, requests_get, mbind, M_bind, emit, raise, eval. simpl.
  destruct (countries_api W _) as [e|resp]; simpl.
  - by destruct (is_RequestException e).
  - unfold raise_for_status. by destruct (_ && _).
Qed.

(** [search], statement by statement. *)
Lemma search_run W form cn st :
  search W form cn st =
  let url := REST_COUNTRIES_URL (lower cn) in
  let st0 := add_logs [HttpGet url [] 10] st in
  let failed := error_page form "Failed to fetch countries data." in
  match countries_api W url with
  | HttpRaises e => (if is_RequestException e then Ok failed else Raise e, st0)
  | HttpResponds resp =>
      match raise_for_status resp with
      | Ok _ =>
          match body resp with
          | None => (Raise JSONDecodeError, st0)
          | Some data =>
              if truthy data then
                match select_sample data st0 with
                | (Ok sample, st1) =>
                    match for_each_country W sample [] st1 with
                    | (Ok results, st2) =>
                        (Ok (render "search_results.html"
                               (ResultsContext form cn results)),
                         snd (save_history W cn results st2))
                    | (Raise e, st2) => (Raise e, st2)
                    | (Hang, st2) => (Hang, st2)
                    end
                | (Raise e, st1) => (Raise e, st1)
                | (Hang, st1) => (Hang, st1)
                end
              else (Ok (error_page form "No countries found for this continent."), st0)
          end
      | _ => (Ok failed, st0)
      end
  end.
Proof.
  unfold search. unfold mbind, M_bind. rewrite fetch_countries_run. simpl.
  destruct (countries_api W _) as [e|resp]; [by destruct (is_RequestException e)|].
  destruct (raise_for_status resp) as [[]|e|]; try done.
  unfold eval, resp_json. destruct (body resp) as [data|]; [|done].
  destruct (truthy data); [|done]. simpl.
  destruct (select_sample data _) as [[sample|e|] st1]; try done.
  destruct (for_each_country W sample [] st1) as [[results|e|] st2]; try done.
  by rewrite save_history_run.
Qed.

Lemma search_cases W form cn st r st' :
  search W form cn st = (r, st') →
  (only_http st st' ∧ ∀ page, r = Ok page → ∃ msg, page = error_page form msg)
  ∨ ∃ resp data sample results st1 st2,
      countries_api W (REST_COUNTRIES_URL (lower cn)) = HttpResponds resp
      ∧ raise_for_status resp = Ok tt
      ∧ body resp = Some data
      ∧ truthy data = true
      ∧ select_sample data (add_logs [HttpGet (REST_COUNTRIES_URL (lower cn)) [] 10] st)
        = (Ok sample, st1)
      ∧ for_each_country W sample [] st1 = (Ok results, st2)
      ∧ only_http st st2
      ∧ save_history W cn results st2 = (Ok tt, st')
      ∧ r = Ok (render "search_results.html" (ResultsContext form cn results)).
Proof.
  unfold search. unfold mbind at 1. unfold M_bind at 1. rewrite fetch_countries_run.
  set (st0 := add_logs _ st).
  assert (H0 : only_http st st0) by (apply only_http_add_logs; by repeat constructor).
  destruct (countries_api W _) as [e|resp] eqn:Hapi.
  { destruct (is_RequestException e); intros [= <- <-]; left; split; try done.
    intros page [= <-]. by eexists. }
  destruct (raise_for_status resp) as [[]|e|] eqn:Hstatus; cycle 1.
  { intros [= <- <-]. left. split; [done|]. intros page [= <-]. by eexists. }
  { intros [= <- <-]. left. split; [done|]. intros page [= <-]. by eexists. }
  unfold mbind at 1. unfold M_bind at 1, eval at 1. unfold resp_json.
  destruct (body resp) as [data|] eqn:Hbody; [|intros [= <- <-]; by left].
  destruct (truthy data) eqn:Htruthy; simpl.
  2:{ intros [= <- <-]. left. split; [done|]. intros page [= <-]. by eexists. }
  unfold mbind at 1. unfold M_bind at 1.
  pose proof (quiet_select_sample data st0) as Hq1.
  destruct (select_sample data st0) as [[sample|e|] st1] eqn:Hsel; simpl in Hq1;
    try (intros [= <- <-]; left; split; [by eapply only_http_trans|done]).
  unfold mbind at 1. unfold M_bind at 1.
  pose proof (quiet_for_each_country W sample [] st1) as Hq2.
  destruct (for_each_country W sample [] st1) as [[results|e|] st2] eqn:Hloop; simpl in Hq2;
    try (intros [= <- <-]; left; split; [|done];
         eapply only_http_trans; [exact H0|]; by eapply only_http_trans).
  unfold mbind at 1. unfold M_bind at 1.
  pose proof (save_history_run W cn results st2) as Hsave. simpl in Hsave.
  rewrite Hsave. unfold mret, M_ret. intros [= <- <-]. right.
  exists resp, data, sample, results, st1, st2. split_and!; try done.
  eapply only_http_trans; [exact H0|]. by eapply only_http_trans.
Qed.

(** ** Field derivation *)

Lemma name_of_spec fields :
  absent_or is_object (dict_get "name" fields) = true →
  name_of (JObj fields) = Ok (spec_name fields).
Proof.
  unfold name_of, spec_name. simpl.
  by destruct (dict_get "name" fields) as [[]|].
Qed.

Lemma capital_of_spec fields :
  absent_or is_list (dict_get "capital" fields) = true →
  capital_list_of (JObj fields) ≫= capital_of = Ok (spec_capital fields).
Proof.
  unfold capital_list_of, capital_of, spec_capital. simpl.
  by destruct (dict_get "capital" fields) as [[| | | | |[|first rest]|]|].
Qed.

Lemma latlng_of_spec fields :
  absent_or is_object (dict_get "capitalInfo" fields) = true →
  absent_or is_pair (capital_latlng fields) = true →
  latlng_of (JObj fields) = Ok (spec_coordinates fields).
Proof.
  unfold latlng_of, spec_coordinates, capital_latlng. simpl.
  destruct (dict_get "capitalInfo" fields) as [[| | | | | |info]|]; try done. simpl.
  by destruct (dict_get "latlng" info) as [[| | | | |[|a [|b [|]]]|]|].
Qed.

(** C8. For a country object shaped as the data model has it, the loop
    body derives: the name as the common name, or "Unknown" if absent;
    the capital as the first element of the capital list if that list is
    present and non-empty, otherwise "N/A"; the population as given, or
    "N/A" if absent; the coordinates as the capital-specific pair if
    present, otherwise the general lat/lng, otherwise null. *)
Theorem derive_fields_as_specified fields :
  country_shape fields = true →
  derive_fields (JObj fields)
  = Ok (mkFields (spec_name fields) (spec_capital fields)
                 (spec_population fields) (spec_coordinates fields)).
Proof.
  unfold country_shape. intros Hshape.
  apply andb_prop in Hshape as [Hshape Hpair].
  apply andb_prop in Hshape as [Hshape Hinfo].
  apply andb_prop in Hshape as [Hname Hcapital].
  unfold derive_fields. rewrite (name_of_spec _ Hname).
  pose proof (capital_of_spec _ Hcapital) as Hc.
  destruct (capital_list_of (JObj fields)) as [capital_list| |]; try done.
  change (capital_of capital_list = Ok (spec_capital fields)) in Hc.
  cbn [mbind Res_bind]. rewrite Hc. cbn [mbind Res_bind].
  by rewrite (latlng_of_spec _ Hinfo Hpair).
Qed.

Lemma derive_fields_as_specified_witness :
  country_shape france_fields = true
  ∧ derive_fields france
    = Ok (mkFields (JStr "France") (JStr "Paris") (JInt 67391582)
                   (JArr [JFloat 4887 (-2); JFloat 233 (-2)])).
Proof.
  split; [reflexivity|].
  apply (derive_fields_as_specified france_fields). reflexivity.
Defined.

(** ** Reading the weather *)

Lemma read_weather_shaped fields :
  weather_shape fields = true →
  read_weather (mkResponse 200 (Some (JObj fields)))
  = Ok (Some (mkWeather (default JNull (main_temp fields))
                        (default JNull (first_description fields)))).
Proof.
  unfold weather_shape, read_weather, main_temp, first_description.
  intros [Hmain Hweather]%andb_prop. simpl.
  destruct (dict_get "main" fields) as [[| | | | | |main]|]; try done; simpl;
    by destruct (dict_get "weather" fields) as [[| | | | |[|[| | | | | |first] rest]|]|].
Qed.

(** C10, as amended. When the weather call answers 200 with a body that
    is an object in which [main], when present, is an object and
    [weather], when present, is a list whose first entry is an object,
    and that body lacks [main.temp] or the first entry's [description],
    the item still has a weather object; its [temp], respectively
    [description], is null. *)
Theorem weather_present_with_null_fields W pos c f st fields :
  derive_fields c = Ok f →
  wants_weather W (f_capital f) = true →
  weather_api W pos (f_capital f) = responds_200 (JObj fields) →
  weather_shape fields = true →
  ∃ w,
    fst (loop_body W pos c st)
    = Ok (mkItem (f_name f) (f_capital f) (f_population f) (f_latlng f) (Some w))
    ∧ (main_temp fields = None → temp w = JNull)
    ∧ (first_description fields = None → description w = JNull)
    ∧ temp w = default JNull (main_temp fields)
    ∧ description w = default JNull (first_description fields).
Proof.
  intros Hf Hwants Hapi Hshape. eexists. split.
  - rewrite loop_body_run. unfold item_of, weather_of. simpl.
    rewrite Hf. cbn [mbind Res_bind]. rewrite Hwants, Hapi. unfold responds_200.
    rewrite (read_weather_shaped _ Hshape). reflexivity.
  - simpl. split_and!; try done; by intros ->.
Qed.

Lemma weather_present_with_null_fields_witness :
  let W := with_weather (λ _ _, responds_200 bare_weather) demo_world in
  derive_fields france
  = Ok (mkFields (JStr "France") (JStr "Paris") (JInt 67391582)
                 (JArr [JFloat 4887 (-2); JFloat 233 (-2)]))
  ∧ fst (loop_body W 0 france demo_state)
    = Ok (mkItem (JStr "France") (JStr "Paris") (JInt 67391582)
                 (JArr [JFloat 4887 (-2); JFloat 233 (-2)])
                 (Some (mkWeather JNull JNull))).
Proof.
  intros W. split; [reflexivity|].
  destruct (weather_present_with_null_fields W 0 france
              (mkFields (JStr "France") (JStr "Paris") (JInt 67391582)
                        (JArr [JFloat 4887 (-2); JFloat 233 (-2)]))
              demo_state [("weather", JArr [JObj [("id", JInt 800)]])]
              eq_refl eq_refl eq_refl eq_refl)
    as (w & Hitem & Htemp & Hdescription & _).
  rewrite Hitem. destruct w as [t d]. simpl in *.
  by rewrite (Htemp eq_refl), (Hdescription eq_refl).
Defined.

(** C10, as stated, fails: a 200 body can lack [main.temp] or the first
    entry's [description] and yet no weather object is built.  On
    [{"weather": []}] there is no first entry and the subscript raises
    [IndexError]; on [{"main": null}] the default of [get] does not
    apply and [None.get] raises [AttributeError].  Neither is a
    [RequestException]: the exception leaves the loop body. *)
Lemma bare_body_builds_no_weather :
  let item_after body :=
    fst (loop_body (with_weather (λ _ _, responds_200 (JObj body)) demo_world)
           0 france demo_state) in
  wants_weather demo_world (JStr "Paris") = true
  ∧ main_temp [("weather", JArr [])] = None
  ∧ first_description [("weather", JArr [])] = None
  ∧ item_after [("weather", JArr [])] = Raise IndexError
  ∧ main_temp [("main", JNull)] = None
  ∧ item_after [("main", JNull)] = Raise AttributeError.
Proof. by vm_compute. Qed.

(** ** The two ways into [home] *)

Lemma is_valid_cleaned W form :
  is_valid W form = true ↔ ∃ cn, cleaned_continent W form = Some cn.
Proof. unfold is_valid. by rewrite bool_decide_eq_true. Qed.

Lemma home_submitted W request cn :
  method request = "POST" →
  cleaned_continent W (ContinentForm request) = Some cn →
  home W request = search W (ContinentForm request) cn.
Proof.
  intros Hmethod Hclean. unfold home. rewrite Hmethod. simpl.
  replace (is_valid W (ContinentForm request)) with true.
  - by rewrite Hclean.
  - symmetry. apply is_valid_cleaned. by exists cn.
Qed.

Lemma home_not_submitted W request st :
  method request ≠ "POST" ∨ is_valid W (ContinentForm request) = false →
  home W request st
  = (Ok (render "continent_form.html" (FormContext (ContinentForm request) None)), st).
Proof.
  intros Hnot. unfold home.
  destruct (String.eqb_spec (method request) "POST") as [Hm|Hm]; simpl.
  - destruct Hnot as [?|Hv]; [done|]. by rewrite Hv.
  - done.
Qed.

Lemma issued_add_logs evs st : issued st (add_logs evs st) = evs.
Proof. by apply issued_app. Qed.

(** ** Failures of the country lookup *)

(** C2, as amended. When the country lookup fails, that is when
    [requests.get] raises a [RequestException] (connection error,
    timeout) or the status is 4xx or 5xx, a valid submission ends with
    the form page carrying "Failed to fetch countries data."; the one
    request is all that happened: the collection is unchanged and
    nothing was handed to [insert_one]. *)
Theorem lookup_failure_is_reported W request st cn :
  method request = "POST" →
  cleaned_continent W (ContinentForm request) = Some cn →
  lookup_fails (countries_api W (REST_COUNTRIES_URL (lower cn))) →
  let st' := add_logs [HttpGet (REST_COUNTRIES_URL (lower cn)) [] 10] st in
  home W request st
  = (Ok (error_page (ContinentForm request) "Failed to fetch countries data."), st')
  ∧ history_collection st' = history_collection st
  ∧ inserts (issued st st') = [].
Proof.
  intros Hmethod Hclean Hfails st'. split_and!; [|done|].
  - rewrite (home_submitted _ _ _ Hmethod Hclean). unfold search.
    unfold mbind, M_bind. rewrite fetch_countries_run.
    unfold lookup_fails in Hfails.
    destruct (countries_api W _) as [e|resp].
    + by rewrite Hfails.
    + unfold raise_for_status.
      destruct (Z.leb_spec 400 (status_code resp)); [|lia].
      destruct (Z.ltb_spec (status_code resp) 600); [|lia]. done.
  - unfold st'. by rewrite issued_add_logs.
Qed.

Lemma lookup_failure_is_reported_witness :
  let W := with_countries (HttpResponds (mkResponse 503 None)) demo_world in
  let st' :=
    add_logs [HttpGet "https://restcountries.com/v3.1/region/europe" [] 10] demo_state in
  lookup_fails (countries_api W (REST_COUNTRIES_URL (lower "Europe")))
  ∧ home W demo_request demo_state
    = (Ok (error_page (ContinentForm demo_request) "Failed to fetch countries data."), st')
  ∧ history_collection st' = []
  ∧ inserts (issued demo_state st') = [].
Proof.
  intros W st'.
  assert (Hfails : lookup_fails (countries_api W (REST_COUNTRIES_URL (lower "Europe"))))
    by (simpl; lia).
  split; [exact Hfails|].
  apply (lookup_failure_is_reported W demo_request demo_state "Europe" eq_refl eq_refl Hfails).
Defined.

(** C2, as stated, fails: a status outside 2xx that is not 4xx or 5xx is
    no failure for [raise_for_status].  On a 300 answer with a country
    list the submission goes through: the results page is rendered and a
    record is inserted. *)
Lemma status_300_is_not_reported :
  let W := with_countries (HttpResponds (mkResponse 300 (Some (JArr [bouvet])))) demo_world in
  method demo_request = "POST"
  ∧ cleaned_continent W (ContinentForm demo_request) = Some "Europe"
  ∧ lookup_fails_non_2xx (countries_api W (REST_COUNTRIES_URL (lower "Europe")))
  ∧ fst (home W demo_request demo_state)
    ≠ Ok (error_page (ContinentForm demo_request) "Failed to fetch countries data.")
  ∧ length (history_collection (snd (home W demo_request demo_state))) = 1.
Proof.
  intros W. split_and!; [done|done|simpl; lia|by vm_compute|by vm_compute].
Qed.

(** C3. When the lookup succeeds with an empty list, a valid submission
    ends with the form page carrying "No countries found for this
    continent."; the collection is unchanged and nothing was handed to
    [insert_one]. *)
Theorem empty_list_is_reported W request st cn resp :
  method request = "POST" →
  cleaned_continent W (ContinentForm request) = Some cn →
  countries_api W (REST_COUNTRIES_URL (lower cn)) = HttpResponds resp →
  raise_for_status resp = Ok tt →
  body resp = Some (JArr []) →
  let st' := add_logs [HttpGet (REST_COUNTRIES_URL (lower cn)) [] 10] st in
  home W request st
  = (Ok (error_page (ContinentForm request) "No countries found for this continent."), st')
  ∧ history_collection st' = history_collection st
  ∧ inserts (issued st st') = [].
Proof.
  intros Hmethod Hclean Hapi Hstatus Hbody st'. split_and!; [|done|].
  - rewrite (home_submitted _ _ _ Hmethod Hclean). unfold search.
    unfold mbind, M_bind. rewrite fetch_countries_run, Hapi, Hstatus.
    unfold eval, resp_json. by rewrite Hbody.
  - unfold st'. by rewrite issued_add_logs.
Qed.

Lemma empty_list_is_reported_witness :
  let W := with_countries (responds_200 (JArr [])) demo_world in
  let st' :=
    add_logs [HttpGet "https://restcountries.com/v3.1/region/europe" [] 10] demo_state in
  home W demo_request demo_state
  = (Ok (error_page (ContinentForm demo_request) "No countries found for this continent."),
     st')
  ∧ history_collection st' = []
  ∧ inserts (issued demo_state st') = [].
Proof.
  intros W.
  apply (empty_list_is_reported W demo_request demo_state "Europe"
           (mkResponse 200 (Some (JArr []))) eq_refl eq_refl eq_refl eq_refl eq_refl).
Defined.

(** ** An uncaught exception *)

(** C9 (the handler is meant never to raise).  A weather answer with
    status 200 whose [weather] list is empty makes [[...][0]] raise
    [IndexError], which [except requests.RequestException] does not
    catch: the exception leaves [home], no page is rendered and nothing
    is inserted. *)
Theorem empty_weather_list_escapes :
  let W := with_weather (λ _ _, responds_200 no_conditions) demo_world in
  fst (home W demo_request demo_state) = Raise IndexError
  ∧ history_collection (snd (home W demo_request demo_state)) = []
  ∧ is_RequestException IndexError = false.
Proof. by vm_compute. Qed.

(** ** Persistence is best effort *)

Lemma for_each_country_with_insert ins W sample : ∀ results st,
  for_each_country (with_insert ins W) sample results st
  = for_each_country W sample results st.
Proof.
  induction sample as [|c rest IH]; intros results st; [done|].
  simpl. unfold mbind, M_bind.
  change (loop_body (with_insert ins W)) with (loop_body W).
  destruct (loop_body W (length results) c st) as [[item|e|] st1]; [apply IH|done|done].
Qed.

(** C6. A failure of the history insert is caught and discarded:
    [save_history] never raises, and the response of [home] is the same
    whatever [insert_one] does, be it success or any exception. *)
Theorem insert_failure_is_invisible W request st :
  (∀ continent_name results st2, fst (save_history W continent_name results st2) = Ok tt)
  ∧ (∀ ins, fst (home (with_insert ins W) request st) = fst (home W request st)).
Proof.
  split.
  - intros cn results st2. by rewrite save_history_run.
  - intros ins. unfold home.
    change (is_valid (with_insert ins W)) with (is_valid W).
    change (cleaned_continent (with_insert ins W)) with (cleaned_continent W).
    destruct (_ && _); [|done].
    rewrite !search_run. cbv zeta.
    change (countries_api (with_insert ins W)) with (countries_api W).
    destruct (countries_api W _) as [e|resp]; [done|].
    destruct (raise_for_status resp) as [[]|e|]; try done.
    destruct (body resp) as [data|]; [|done].
    destruct (truthy data); [|done].
    destruct (select_sample data _) as [[sample|e|] st1]; try done.
    rewrite for_each_country_with_insert.
    by destruct (for_each_country W sample [] st1) as [[results|e|] st2].
Qed.

(** ** The history page *)

#[global] Instance newer_first_total : Total newer_first.
Proof. intros a b. unfold newer_first. lia. Qed.

#[global] Instance newer_first_trans : Transitive newer_first.
Proof. intros a b c. unfold newer_first. lia. Qed.

(** The newest [n] records of a collection. *)
Lemma newest_spec (n : nat) (collection : list SearchHistoryRecord) :
  let searches := take n (merge_sort newer_first collection) in
  length searches = min n (length collection)
  ∧ StronglySorted newer_first searches
  ∧ searches ⊆+ collection
  ∧ ∀ old s, old ∈ collection → old ∉ searches → s ∈ searches → newer_first s old.
Proof.
  intros searches. unfold searches.
  pose proof (StronglySorted_merge_sort newer_first collection) as Hsorted.
  pose proof (merge_sort_Permutation newer_first collection) as Hperm.
  rewrite <- (take_drop n (merge_sort newer_first collection)) in Hsorted.
  split_and!.
  - by rewrite length_take, Hperm.
  - by eapply StronglySorted_app_1_l.
  - rewrite <- Hperm at 2. apply sublist_submseteq, sublist_take.
  - intros old s Hold Hnot Hs.
    eapply StronglySorted_app_1_elem_of; [exact Hsorted|done|].
    rewrite <- Hperm, <- (take_drop n (merge_sort newer_first collection)) in Hold.
    apply elem_of_app in Hold as [?|?]; done.
Qed.

(** C7. [history_view] always renders a list of at most 20 records, newest
    first by [searched_at]; when the store fails the list is empty, and
    otherwise it holds the newest records of the collection. *)
Theorem history_view_lists_newest W request st :
  ∃ searches,
    history_view W request st
    = (Ok (render "history.html" (HistoryContext searches)), add_logs [Find] st)
    ∧ length searches ≤ 20
    ∧ StronglySorted newer_first searches
    ∧ (is_Some (find_fails W) → searches = [])
    ∧ (find_fails W = None →
         length searches = min 20 (length (history_collection st))
         ∧ searches ⊆+ history_collection st
         ∧ ∀ old s, old ∈ history_collection st → old ∉ searches → s ∈ searches →
             newer_first s old).
Proof.
  unfold history_view, try_except, collection_find_sort_limit, mbind, M_bind, emit, raise,
    eval. simpl.
  destruct (find_fails W) as [e|] eqn:Hfind.
  - exists []. simpl. split_and!; [done|lia|constructor|done|done].
  - destruct (newest_spec 20 (history_collection st)) as (Hlen & Hsorted & Hsub & Hnewest).
    exists (take 20 (merge_sort newer_first (history_collection st))).
    split_and!; [done|rewrite Hlen; lia|done|by intros [? ?]|done].
Qed.

Lemma history_view_lists_newest_witness :
  let older := mkRecord "Asia" 100 [] in
  let newer := mkRecord "Europe" 300 [] in
  let middle := mkRecord "Africa" 200 [] in
  let st := mkState [] [older; newer; middle] [] in
  fst (history_view demo_world demo_request st)
  = Ok (render "history.html" (HistoryContext [newer; middle; older])).
Proof.
  intros older newer middle st.
  destruct (history_view_lists_newest demo_world demo_request st)
    as (searches & Hrun & _ & _ & _ & _).
  rewrite Hrun. vm_compute in Hrun. by simplify_eq.
Defined.

(** ** When a record is written *)

Lemma issued_refl st : issued st st = [].
Proof. unfold issued. by rewrite drop_all. Qed.

Lemma save_history_effects W cn results st st2 :
  only_http st st2 →
  let doc := mkRecord cn (utcnow W) results in
  let st' := snd (save_history W cn results st2) in
  inserts (issued st st') = [doc]
  ∧ history_collection st'
    = history_collection st ++ match insert_one W doc with None => [doc] | Some _ => [] end.
Proof.
  intros [Hhist (evs & Hlog & Hhttp)] doc st'. unfold st'.
  rewrite save_history_run. fold doc. simpl. split.
  - rewrite (issued_app st _ (evs ++ [InsertOne doc])).
    + by rewrite inserts_app, (inserts_http _ Hhttp).
    + destruct (insert_one W doc); simpl; by rewrite Hlog, app_assoc.
  - destruct (insert_one W doc); simpl; rewrite Hhist; [by rewrite app_nil_r|done].
Qed.

(** C5. [home] hands a record to [insert_one] only on a successful
    submission: never on a request that is not a POST or whose form does
    not validate, and only after the lookup returned a non-empty list.  A
    submission that renders N results hands over exactly one record,
    with the continent, the time of the search and the same N results, in
    the order of the sample; the collection gains that record when the
    driver accepts it. *)
Theorem history_record_written_once W request st :
  let form := ContinentForm request in
  let st' := snd (home W request st) in
  (method request ≠ "POST" ∨ is_valid W form = false → st' = st)
  ∧ (inserts (issued st st') ≠ [] ∨ history_collection st' ≠ history_collection st →
       method request = "POST"
       ∧ ∃ cn resp data,
           cleaned_continent W form = Some cn
           ∧ countries_api W (REST_COUNTRIES_URL (lower cn)) = HttpResponds resp
           ∧ raise_for_status resp = Ok tt
           ∧ body resp = Some data
           ∧ truthy data = true)
  ∧ (∀ f cn results,
       fst (home W request st)
       = Ok (render "search_results.html" (ResultsContext f cn results)) →
       let doc := mkRecord cn (utcnow W) results in
       cleaned_continent W form = Some cn
       ∧ inserts (issued st st') = [doc]
       ∧ history_collection st'
         = history_collection st
           ++ match insert_one W doc with None => [doc] | Some _ => [] end
       ∧ ∃ resp data sample st1 st2,
           countries_api W (REST_COUNTRIES_URL (lower cn)) = HttpResponds resp
           ∧ body resp = Some data
           ∧ select_sample data (add_logs [HttpGet (REST_COUNTRIES_URL (lower cn)) [] 10] st)
             = (Ok sample, st1)
           ∧ for_each_country W sample [] st1 = (Ok results, st2)
           ∧ length results = length sample
           ∧ ∀ k c, sample !! k = Some c →
               ∃ item, results !! k = Some item ∧ item_of W k c = Ok item).
Proof.
  intros form st'.
  destruct (decide (method request = "POST")) as [Hmethod|Hmethod]; cycle 1.
  { assert (Hst : st' = st).
    { unfold st'. rewrite home_not_submitted by (by left). done. }
    split_and!; [done| |].
    - rewrite Hst, issued_refl. intros [?|?]; done.
    - intros f cn results. rewrite home_not_submitted by (by left). done. }
  destruct (is_valid W form) eqn:Hvalid; cycle 1.
  { assert (Hst : st' = st).
    { unfold st'. rewrite home_not_submitted by (by right). done. }
    split_and!; [done| |].
    - rewrite Hst, issued_refl. intros [?|?]; done.
    - intros f cn results. rewrite home_not_submitted by (by right). done. }
  apply is_valid_cleaned in Hvalid as [cn Hclean].
  unfold st'. rewrite (home_submitted _ _ _ Hmethod Hclean). fold form.
  destruct (search W form cn st) as [r st1] eqn:Hsearch. simpl.
  apply search_cases in Hsearch
    as [[Hquiet Hpage]
       |(resp & data & sample & results & st2 & st3 & Hapi & Hstatus & Hbody & Htruthy
         & Hsel & Hloop & Hquiet & Hsave & ->)].
  - split_and!.
    + intros [?|?]; done.
    + rewrite (only_http_inserts _ _ Hquiet). destruct Hquiet as [-> _].
      intros [?|?]; done.
    + intros f cn' results ->. by destruct (Hpage _ eq_refl) as [msg ?].
  - pose proof (save_history_effects W cn results st st3 Hquiet) as [Hins Hhist].
    rewrite Hsave in Hins, Hhist. simpl in Hins, Hhist.
    split_and!.
    + intros [?|?]; done.
    + intros _. split; [done|]. by exists cn, resp, data.
    + intros f cn' results' [= <- <- <-]. split_and!; [done|done|done|].
      apply for_each_country_Ok in Hloop as Hitems.
      destruct Hitems as (items & Hres & Hlen & Hitems & _). simpl in Hres. subst items.
      exists resp, data, sample, st2, st3.
      split_and!; [done|done|done|done| |done].
      symmetry. by eapply Forall2_length.
Qed.

Lemma history_record_written_once_witness :
  let run := home demo_world demo_request demo_state in
  ∃ results,
    fst run
    = Ok (render "search_results.html"
            (ResultsContext (ContinentForm demo_request) "Europe" results))
    ∧ length results = 3
    ∧ inserts (issued demo_state (snd run))
      = [mkRecord "Europe" (utcnow demo_world) results]
    ∧ history_collection (snd run) = [mkRecord "Europe" (utcnow demo_world) results].
Proof.
  intros run.
  destruct (fst run) as [[t [| f cn results |]]| |] eqn:Hrun; try by vm_compute in Hrun.
  assert (Hshape : t = "search_results.html" ∧ f = ContinentForm demo_request
                   ∧ cn = "Europe" ∧ length results = 3).
  { vm_compute in Hrun. by simplify_eq. }
  destruct Hshape as (-> & -> & -> & Hlen).
  exists results. split; [done|]. split; [done|].
  destruct (history_record_written_once demo_world demo_request demo_state)
    as (_ & _ & Hwritten).
  destruct (Hwritten _ _ _ Hrun) as (_ & Hins & Hhist & _).
  split; [exact Hins|exact Hhist].
Defined.

(** ** Weather failures *)

Lemma weather_of_fails W pos capital :
  weather_fails (weather_api W pos capital) → weather_of W pos capital = Ok None.
Proof.
  unfold weather_of, weather_fails. destruct (wants_weather W capital); [|done].
  destruct (weather_api W pos capital) as [e|w_resp]; simpl.
  - intros He. by rewrite He.
  - intros Hstatus. unfold read_weather.
    by destruct (Z.eqb_spec (status_code w_resp) 200).
Qed.

Lemma item_of_Ok W pos c item :
  item_of W pos c = Ok item ↔
  ∃ f, derive_fields c = Ok f
    ∧ weather_of W pos (f_capital f) = Ok (weather item)
    ∧ item = mkItem (f_name f) (f_capital f) (f_population f) (f_latlng f) (weather item).
Proof.
  unfold item_of. split.
  - destruct (derive_fields c) as [f| |]; try done. cbn [mbind Res_bind].
    destruct (weather_of W pos (f_capital f)) as [w| |] eqn:Hw; try done.
    cbn [mbind Res_bind mret Res_ret]. intros [= <-]. by exists f.
  - intros (f & -> & Hw & ->). cbn [mbind Res_bind]. by rewrite Hw.
Qed.

Lemma item_of_with_weather w W pos c :
  (∀ q, w pos q = weather_api W pos q) →
  item_of (with_weather w W) pos c = item_of W pos c.
Proof.
  intros Hagree. unfold item_of, weather_of.
  destruct (derive_fields c) as [f| |]; try done. cbn [mbind Res_bind].
  change (wants_weather (with_weather w W)) with (wants_weather W).
  change (weather_api (with_weather w W)) with w. by rewrite Hagree.
Qed.

(** The requests a run of the loop issues, whether it completes or not. *)
Lemma for_each_country_requests W sample : ∀ acc st,
  ∃ evs,
    snd (for_each_country W sample acc st) = add_logs evs st
    ∧ Forall (λ ev, ∃ c f, c ∈ sample ∧ derive_fields c = Ok f
                ∧ wants_weather W (f_capital f) = true
                ∧ ev = HttpGet OPENWEATHER_URL (weather_params W (f_capital f)) 10) evs.
Proof.
  induction sample as [|c rest IH]; intros acc st.
  - exists []. by rewrite add_logs_nil.
  - simpl. unfold mbind, M_bind. rewrite loop_body_run.
    assert (Hc : Forall (λ ev, ∃ c' f, c' ∈ c :: rest ∧ derive_fields c' = Ok f
                           ∧ wants_weather W (f_capital f) = true
                           ∧ ev = HttpGet OPENWEATHER_URL (weather_params W (f_capital f)) 10)
                   (weather_events W c)).
    { unfold weather_events. destruct (derive_fields c) as [f| |] eqn:Hf; try done.
      destruct (wants_weather W (f_capital f)) eqn:Hwants; [|done].
      repeat constructor. exists c, f. split_and!; try done. apply list_elem_of_here. }
    destruct (item_of W (length acc) c) as [item|e|]; try by eexists.
    destruct (IH (acc ++ [item]) (add_logs (weather_events W c) st)) as (evs & -> & Hevs).
    exists (weather_events W c ++ evs). split; [by rewrite add_logs_app|].
    apply Forall_app. split; [done|].
    eapply Forall_impl; [exact Hevs|]. intros ev (c' & f & Hin & ?).
    exists c', f. split; [by apply list_elem_of_further|done].
Qed.

(** C4. The weather request of an item is issued only when its capital
    is not "N/A" and the API key is set.  When the request of the item at
    position [i] fails (a status other than 200, a transport error or a
    timeout), that item is still built, with its other fields as derived
    and no weather; a loop that completes without the failure completes
    with it, issues the same requests, and yields the same items at every
    other position. *)
Theorem weather_failure_is_contained W sample st i bad :
  weather_fails bad →
  let W' := with_weather (λ pos q, if decide (pos = i) then bad else weather_api W pos q) W in
  (∀ c f st0,
     derive_fields c = Ok f →
     fst (loop_body W' i c st0)
     = Ok (mkItem (f_name f) (f_capital f) (f_population f) (f_latlng f) None))
  ∧ (∀ results st',
       for_each_country W sample [] st = (Ok results, st') →
       for_each_country W' sample [] st = (Ok (alter without_weather i results), st'))
  ∧ (∀ ev,
       ev ∈ issued st (snd (for_each_country W sample [] st)) →
       ∃ c f,
         c ∈ sample ∧ derive_fields c = Ok f
         ∧ is_str "N/A" (f_capital f) = false ∧ api_key_set W = true
         ∧ ev = HttpGet OPENWEATHER_URL (weather_params W (f_capital f)) 10).
Proof.
  intros Hbad W'.
  assert (Hfailed : ∀ c f, derive_fields c = Ok f →
            item_of W' i c
            = Ok (mkItem (f_name f) (f_capital f) (f_population f) (f_latlng f) None)).
  { intros c f Hf. apply item_of_Ok. exists f. split_and!; [done| |done].
    apply weather_of_fails. simpl. by rewrite decide_True. }
  split_and!.
  - intros c f st0 Hf. rewrite loop_body_run. by apply Hfailed.
  - intros results st' Hloop.
    apply for_each_country_Ok in Hloop as (items & -> & Hlen & Hitems & ->).
    apply for_each_country_Ok. exists (alter without_weather i items). split_and!.
    + done.
    + apply Forall2_true; [done|]. rewrite length_alter. by eapply Forall2_length.
    + intros k c Hc. destruct (Hitems k c Hc) as (item & Hitem & Hbuilt).
      destruct (decide (k = i)) as [->|Hne].
      * exists (without_weather item). split.
        -- by rewrite list_lookup_alter_eq, Hitem.
        -- apply item_of_Ok in Hbuilt as (f & Hf & _ & ->). by apply Hfailed.
      * exists item. split.
        -- by rewrite list_lookup_alter_ne.
        -- rewrite <- Hbuilt. apply item_of_with_weather. intros q.
           by rewrite decide_False.
    + done.
  - intros ev Hev.
    destruct (for_each_country_requests W sample [] st) as (evs & Hst & Hevs).
    rewrite Hst, issued_add_logs in Hev.
    rewrite Forall_forall in Hevs.
    destruct (Hevs ev Hev) as (c & f & Hin & Hf & Hwants & ->).
    unfold wants_weather in Hwants. apply andb_prop in Hwants as [Hna Hkey].
    exists c, f. split_and!; try done. by apply negb_true_iff.
Qed.

Lemma weather_failure_is_contained_witness :
  let sample := [france; bouvet; iceland] in
  let W' :=
    with_weather (λ pos q, if decide (pos = 0) then HttpRaises Timeout
                           else weather_api demo_world pos q) demo_world in
  weather_fails (HttpRaises Timeout)
  ∧ ∃ results st',
      for_each_country demo_world sample [] demo_state = (Ok results, st')
      ∧ for_each_country W' sample [] demo_state
        = (Ok (alter without_weather 0 results), st')
      ∧ weather <$> results !! 0 = Some (Some (mkWeather (JFloat 185 (-1)) (JStr "clear sky")))
      ∧ weather <$> alter without_weather 0 results !! 0 = Some None.
Proof.
  intros sample W'.
  destruct (weather_failure_is_contained demo_world sample demo_state 0
              (HttpRaises Timeout) eq_refl) as (_ & Hcontained & _).
  split; [reflexivity|].
  destruct (for_each_country demo_world sample [] demo_state) as [r st'] eqn:Hrun.
  destruct r as [results| |]; try by vm_compute in Hrun.
  exists results, st'. split; [done|]. split; [by apply Hcontained|].
  vm_compute in Hrun. by simplify_eq.
Defined.

(** ** Sampling *)

Lemma bind_not_Hang {A B} (r : Res A) (f : A → Res B) :
  r ≠ Hang → (∀ a, f a ≠ Hang) → r ≫= f ≠ Hang.
Proof. destruct r; simpl; auto. Qed.

Lemma py_get_not_Hang v k d : py_get v k d ≠ Hang.
Proof. by destruct v. Qed.

Lemma py_first_not_Hang v : py_first v ≠ Hang.
Proof. by destruct v as [| | | |[|]|[|]|]. Qed.

Lemma derive_fields_not_Hang c : derive_fields c ≠ Hang.
Proof.
  unfold derive_fields, name_of, capital_list_of, capital_of, population_of, latlng_of.
  repeat first
    [ apply py_get_not_Hang | apply py_first_not_Hang
    | apply bind_not_Hang; [|intros ?]
    | match goal with |- (if ?b then _ else _) ≠ Hang => destruct b end
    | done ].
Qed.

Lemma read_weather_not_Hang w_resp : read_weather w_resp ≠ Hang.
Proof.
  unfold read_weather, resp_json. destruct (_ =? _)%Z; [|done].
  repeat first
    [ apply py_get_not_Hang | apply py_first_not_Hang
    | apply bind_not_Hang; [|intros ?]
    | match goal with |- match ?o with Some _ => _ | None => _ end ≠ Hang => destruct o end
    | done ].
Qed.

Lemma item_of_not_Hang W pos c : item_of W pos c ≠ Hang.
Proof.
  unfold item_of. apply bind_not_Hang; [apply derive_fields_not_Hang|intros f].
  apply bind_not_Hang; [|done].
  unfold weather_of. destruct (wants_weather _ _); [|done].
  unfold swallow. destruct (weather_api _ _ _) as [e|w_resp].
  - by destruct (is_RequestException e).
  - pose proof (read_weather_not_Hang w_resp).
    destruct (read_weather w_resp) as [w|e|]; try done. by destruct (is_RequestException e).
Qed.

Lemma for_each_country_not_Hang W sample : ∀ acc st,
  fst (for_each_country W sample acc st) ≠ Hang.
Proof.
  induction sample as [|c rest IH]; intros acc st; [done|].
  simpl. unfold mbind, M_bind. rewrite loop_body_run.
  pose proof (item_of_not_Hang W (length acc) c).
  destruct (item_of W (length acc) c); [apply IH|done|done].
Qed.

Lemma select_sample_list countries st :
  enough_draws (length countries) (min 5 (length countries)) (rng st) →
  ∃ sample t,
    select_sample (JArr countries) st = (Ok sample, set_rng t st)
    ∧ length sample = min 5 (length countries)
    ∧ drawn_from sample countries.
Proof.
  intros Hdraws.
  cbv beta iota delta [select_sample mbind M_bind eval py_len py_sequence].
  apply random_sample_spec; [lia|done].
Qed.

Lemma built_from_sample W countries sample results :
  drawn_from sample countries →
  length results = length sample →
  (∀ k c, sample !! k = Some c →
     ∃ item, results !! k = Some item ∧ item_of W k c = Ok item) →
  built_from W countries results.
Proof.
  intros (idxs & Hnodup & Hidxs) Hlen Hitems. exists idxs. split_and!; [done| |].
  - rewrite Hlen. symmetry. by eapply Forall2_length.
  - intros k item Hitem.
    destruct (lookup_lt_is_Some_2 sample k) as [c Hc].
    { rewrite <- Hlen. by eapply lookup_lt_Some. }
    destruct (Hitems k c Hc) as (item' & Hitem' & Hbuilt).
    destruct (Forall2_lookup_l _ _ _ _ _ Hidxs Hc) as (i & Hi & Hcountry).
    exists i, c. split_and!; [done|done|congruence].
Qed.

(** C1. For a non-empty list of N countries (and a generator with draws
    to give), the sampling step picks exactly min(5, N) of them, from
    pairwise distinct positions of the list; [search] then does not
    hang, and when it renders a page, it is the results page with
    exactly min(5, N) items, each built from a distinct entry of the
    list. *)
Theorem sample_is_min_5_distinct W form cn st resp countries :
  countries_api W (REST_COUNTRIES_URL (lower cn)) = HttpResponds resp →
  raise_for_status resp = Ok tt →
  body resp = Some (JArr countries) →
  countries ≠ [] →
  enough_draws (length countries) (min 5 (length countries)) (rng st) →
  ∃ sample st1,
    select_sample (JArr countries)
      (add_logs [HttpGet (REST_COUNTRIES_URL (lower cn)) [] 10] st)
    = (Ok sample, st1)
    ∧ length sample = min 5 (length countries)
    ∧ drawn_from sample countries
    ∧ fst (search W form cn st) ≠ Hang
    ∧ ∀ page, fst (search W form cn st) = Ok page →
        ∃ results,
          page = render "search_results.html" (ResultsContext form cn results)
          ∧ length results = min 5 (length countries)
          ∧ built_from W countries results.
Proof.
  intros Hapi Hstatus Hbody Hne Hdraws.
  set (st0 := add_logs [HttpGet (REST_COUNTRIES_URL (lower cn)) [] 10] st).
  destruct (select_sample_list countries st0 Hdraws) as (sample & t & Hsel & Hlen & Hdrawn).
  exists sample, (set_rng t st0). split_and!; try done.
  - rewrite search_run. cbv zeta. fold st0. rewrite Hapi, Hstatus, Hbody.
    destruct countries; [done|]. simpl truthy. cbv iota. rewrite Hsel.
    pose proof (for_each_country_not_Hang W sample [] (set_rng t st0)) as Hloop.
    by destruct (for_each_country W sample [] (set_rng t st0)) as [[results|e|] st2].
  - intros page. rewrite search_run. cbv zeta. fold st0. rewrite Hapi, Hstatus, Hbody.
    destruct countries as [|c0 countries]; [done|]. simpl truthy. cbv iota. rewrite Hsel.
    destruct (for_each_country W sample [] (set_rng t st0)) as [[results|e|] st2] eqn:Hloop;
      try done.
    intros [= <-]. exists results.
    apply for_each_country_Ok in Hloop as (items & Hres & Hlen' & Hitems & _).
    simpl in Hres. subst items. apply Forall2_length in Hlen'.
    split_and!; [done|congruence|].
    by apply (built_from_sample W _ sample).
Qed.

Lemma sample_is_min_5_distinct_witness :
  let W := with_countries (responds_200 (JArr atlas)) demo_world in
  let form := ContinentForm demo_request in
  atlas ≠ []
  ∧ enough_draws (length atlas) (min 5 (length atlas)) (rng demo_state)
  ∧ ∃ results,
      fst (search W form "Europe" demo_state)
      = Ok (render "search_results.html" (ResultsContext form "Europe" results))
      ∧ country <$> results = [JStr "D"; JStr "B"; JStr "E"; JStr "F"; JStr "J"]
      ∧ length results = min 5 (length atlas)
      ∧ built_from W atlas results.
Proof.
  intros W form.
  assert (Hne : atlas ≠ []) by done.
  assert (Hdraws : enough_draws (length atlas) (min 5 (length atlas)) (rng demo_state)).
  { vm_compute. lia. }
  split; [exact Hne|]. split; [exact Hdraws|].
  destruct (sample_is_min_5_distinct W form "Europe" demo_state
              (mkResponse 200 (Some (JArr atlas))) atlas eq_refl eq_refl eq_refl Hne Hdraws)
    as (sample & st1 & _ & _ & _ & _ & Hpage).
  destruct (fst (search W form "Europe" demo_state)) as [page| |] eqn:Hrun;
    try by vm_compute in Hrun.
  destruct (Hpage page eq_refl) as (results & -> & Hlen & Hbuilt).
  exists results. split_and!; [done| |done|done].
  vm_compute in Hrun. by simplify_eq.
Defined.

(** * Further properties *)

(** ** Requests that are not a submission *)

(** X1. A request that is not a POST, or a POST with no data (the form is
    then built unbound, from [None]), or one whose data the form rejects,
    gets the form page without an error message; nothing else happens:
    no outbound call, no use of the generator, no insert. *)
Theorem unsubmitted_request_shows_form W request st :
  method request ≠ "POST" ∨ POST request = [] ∨ clean_continent W (POST request) = None →
  home W request st
  = (Ok (render "continent_form.html" (FormContext (ContinentForm request) None)), st).
Proof.
  intros Hcase. apply home_not_submitted.
  destruct Hcase as [Hmethod|Hform]; [by left|right].
  apply not_true_is_false. rewrite is_valid_cleaned. intros [cn Hcn].
  unfold cleaned_continent, ContinentForm in Hcn. simpl in Hcn.
  destruct Hform as [Hempty|Hrejected].
  - by rewrite Hempty in Hcn.
  - destruct (POST request); [done|]. simpl in Hcn. congruence.
Qed.

Lemma unsubmitted_request_shows_form_witness :
  let request := mkRequest "POST" [] in
  home demo_world request demo_state
  = (Ok (render "continent_form.html" (FormContext (mkForm None) None)), demo_state).
Proof.
  intros request.
  apply (unsubmitted_request_shows_form demo_world request demo_state).
  right. left. reflexivity.
Defined.

(** ** Bodies of the country lookup that are no list of countries *)

(** X2. Any body that Python takes for false ([[]], [{}], [null], [""],
    [0], [false]) is answered like the empty list: the form page with
    "No countries found for this continent.", after the one request and
    nothing else. *)
Theorem falsy_body_is_reported W request st cn resp data :
  method request = "POST" →
  cleaned_continent W (ContinentForm request) = Some cn →
  countries_api W (REST_COUNTRIES_URL (lower cn)) = HttpResponds resp →
  raise_for_status resp = Ok tt →
  body resp = Some data →
  truthy data = false →
  home W request st
  = (Ok (error_page (ContinentForm request) "No countries found for this continent."),
     add_logs [HttpGet (REST_COUNTRIES_URL (lower cn)) [] 10] st).
Proof.
  intros Hmethod Hclean Hapi Hstatus Hbody Hfalsy.
  rewrite (home_submitted _ _ _ Hmethod Hclean), search_run. cbv zeta.
  by rewrite Hapi, Hstatus, Hbody, Hfalsy.
Qed.

Lemma falsy_body_is_reported_witness :
  let W := with_countries (responds_200 (JObj [])) demo_world in
  home W demo_request demo_state
  = (Ok (error_page (ContinentForm demo_request) "No countries found for this continent."),
     add_logs [HttpGet "https://restcountries.com/v3.1/region/europe" [] 10] demo_state).
Proof.
  intros W.
  apply (falsy_body_is_reported W demo_request demo_state "Europe"
           (mkResponse 200 (Some (JObj []))) (JObj [])
           eq_refl eq_refl eq_refl eq_refl eq_refl eq_refl).
Defined.

(** X3. [resp.json()] is called after the first [try]: when the status
    is no 4xx or 5xx and the body does not decode, the
    [JSONDecodeError] leaves [home], although it is a
    [RequestException]; no page is rendered and nothing is inserted. *)
Theorem undecodable_body_escapes W request st cn resp :
  method request = "POST" →
  cleaned_continent W (ContinentForm request) = Some cn →
  countries_api W (REST_COUNTRIES_URL (lower cn)) = HttpResponds resp →
  raise_for_status resp = Ok tt →
  body resp = None →
  home W request st
  = (Raise JSONDecodeError, add_logs [HttpGet (REST_COUNTRIES_URL (lower cn)) [] 10] st)
  ∧ is_RequestException JSONDecodeError = true.
Proof.
  intros Hmethod Hclean Hapi Hstatus Hbody. split; [|done].
  rewrite (home_submitted _ _ _ Hmethod Hclean), search_run. cbv zeta.
  by rewrite Hapi, Hstatus, Hbody.
Qed.

Lemma undecodable_body_escapes_witness :
  let W := with_countries (HttpResponds (mkResponse 200 None)) demo_world in
  home W demo_request demo_state
  = (Raise JSONDecodeError,
     add_logs [HttpGet "https://restcountries.com/v3.1/region/europe" [] 10] demo_state)
  ∧ is_RequestException JSONDecodeError = true.
Proof.
  intros W.
  apply (undecodable_body_escapes W demo_request demo_state "Europe"
           (mkResponse 200 None) eq_refl eq_refl eq_refl eq_refl eq_refl).
Defined.

(** X4. A body that is true for Python but has no length or is no
    sequence (a non-empty dict, a number, [true]) makes
    [random.sample(countries_data, min(5, len(countries_data)))] raise
    [TypeError]; the exception leaves [home] after the one request. *)
Theorem non_sequence_body_escapes W request st cn resp data :
  method request = "POST" →
  cleaned_continent W (ContinentForm request) = Some cn →
  countries_api W (REST_COUNTRIES_URL (lower cn)) = HttpResponds resp →
  raise_for_status resp = Ok tt →
  body resp = Some data →
  truthy data = true →
  not_a_sequence data = true →
  home W request st
  = (Raise TypeError, add_logs [HttpGet (REST_COUNTRIES_URL (lower cn)) [] 10] st).
Proof.
  intros Hmethod Hclean Hapi Hstatus Hbody Htruthy Hseq.
  rewrite (home_submitted _ _ _ Hmethod Hclean), search_run. cbv zeta.
  rewrite Hapi, Hstatus, Hbody, Htruthy.
  by destruct data.
Qed.

Lemma non_sequence_body_escapes_witness :
  let message := JObj [("status", JInt 404); ("message", JStr "Not Found")] in
  let W := with_countries (responds_200 message) demo_world in
  home W demo_request demo_state
  = (Raise TypeError,
     add_logs [HttpGet "https://restcountries.com/v3.1/region/europe" [] 10] demo_state).
Proof.
  intros message W.
  apply (non_sequence_body_escapes W demo_request demo_state "Europe"
           (mkResponse 200 (Some message)) message
           eq_refl eq_refl eq_refl eq_refl eq_refl eq_refl eq_refl).
Defined.

(** ** Countries without a capital, and a missing key *)

Lemma capital_of_falsy fields :
  truthy (default JNull (dict_get "capital" fields)) = false →
  capital_list_of (JObj fields) ≫= capital_of = Ok (JStr "N/A").
Proof.
  intros Hfalsy. unfold capital_list_of, capital_of. simpl. by rewrite Hfalsy.
Qed.

(** X5. A country whose [capital] is missing, [null] or empty gets the
    capital "N/A" and no weather, whatever the API key and the weather
    service are; no request is made for it. *)
Theorem country_without_capital W pos fields f st :
  truthy (default JNull (dict_get "capital" fields)) = false →
  derive_fields (JObj fields) = Ok f →
  f_capital f = JStr "N/A"
  ∧ loop_body W pos (JObj fields) st
    = (Ok (mkItem (f_name f) (JStr "N/A") (f_population f) (f_latlng f) None), st).
Proof.
  intros Hfalsy Hf.
  assert (Hcapital : f_capital f = JStr "N/A").
  { pose proof (capital_of_falsy fields Hfalsy) as Hc.
    unfold derive_fields in Hf.
    destruct (name_of (JObj fields)) as [name| |]; try done. cbn [mbind Res_bind] in Hf.
    destruct (capital_list_of (JObj fields)) as [capital_list| |]; try done.
    cbn [mbind Res_bind] in Hf, Hc. rewrite Hc in Hf. cbn [mbind Res_bind] in Hf.
    destruct (population_of (JObj fields)) as [population| |]; try done.
    cbn [mbind Res_bind] in Hf.
    destruct (latlng_of (JObj fields)) as [latlng| |]; try done.
    simpl in Hf. unfold mret, Res_ret in Hf. by simplify_eq. }
  split; [done|].
  rewrite loop_body_run. unfold item_of, weather_events, weather_of.
  rewrite Hf. cbn [mbind Res_bind]. rewrite Hcapital.
  unfold wants_weather. simpl. by rewrite add_logs_nil.
Qed.

Lemma country_without_capital_witness :
  loop_body demo_world 2 bouvet demo_state
  = (Ok (mkItem (JStr "Bouvet Island") (JStr "N/A") (JStr "N/A")
                (JArr [JFloat (-5443) (-2); JFloat 34 (-1)]) None),
     demo_state).
Proof.
  apply (country_without_capital demo_world 2
           [("name", JObj [("common", JStr "Bouvet Island")]);
            ("capital", JArr []);
            ("latlng", JArr [JFloat (-5443) (-2); JFloat 34 (-1)])]
           (mkFields (JStr "Bouvet Island") (JStr "N/A") (JStr "N/A")
                     (JArr [JFloat (-5443) (-2); JFloat 34 (-1)]))
           demo_state eq_refl eq_refl).
Defined.

(** X6. When [OPENWEATHERMAP_API_KEY] is unset or empty the loop makes no
    request and touches nothing, and every item it appends has no
    weather. *)
Theorem no_key_no_weather W sample acc st :
  api_key_set W = false →
  snd (for_each_country W sample acc st) = st
  ∧ ∀ results,
      fst (for_each_country W sample acc st) = Ok results →
      ∃ items,
        results = acc ++ items
        ∧ length items = length sample
        ∧ Forall (λ item, weather item = None) items.
Proof.
  intros Hkey.
  assert (Hwants : ∀ capital, wants_weather W capital = false).
  { intros capital. unfold wants_weather. rewrite Hkey. apply andb_false_r. }
  split.
  - destruct (for_each_country_requests W sample acc st) as (evs & -> & Hevs).
    destruct Hevs as [|ev evs (c & f & _ & _ & Hw & _) _]; [apply add_logs_nil|].
    by rewrite Hwants in Hw.
  - intros results Hrun.
    destruct (for_each_country W sample acc st) as [r st'] eqn:Hloop. simpl in Hrun. subst r.
    apply for_each_country_Ok in Hloop as (items & -> & Hlen & Hitems & _).
    exists items. split_and!; [done|symmetry; by eapply Forall2_length|].
    apply Forall_lookup. intros k item Hitem.
    destruct (lookup_lt_is_Some_2 sample k) as [c Hc].
    { apply Forall2_length in Hlen. rewrite Hlen. by eapply lookup_lt_Some. }
    destruct (Hitems k c Hc) as (item' & Hitem' & Hbuilt). simplify_eq.
    apply item_of_Ok in Hbuilt as (f & _ & Hweather & _).
    unfold weather_of in Hweather. rewrite Hwants in Hweather. congruence.
Qed.

Lemma no_key_no_weather_witness :
  let W := mkWorld demo_clean (Some "") (countries_api demo_world) (weather_api demo_world)
                   (utcnow demo_world) (insert_one demo_world) (find_fails demo_world) in
  snd (for_each_country W [france; bouvet] [] demo_state) = demo_state
  ∧ fst (for_each_country W [france; bouvet] [] demo_state)
    = Ok [mkItem (JStr "France") (JStr "Paris") (JInt 67391582)
                 (JArr [JFloat 4887 (-2); JFloat 233 (-2)]) None;
          mkItem (JStr "Bouvet Island") (JStr "N/A") (JStr "N/A")
                 (JArr [JFloat (-5443) (-2); JFloat 34 (-1)]) None].
Proof.
  intros W.
  destruct (no_key_no_weather W [france; bouvet] [] demo_state eq_refl) as [Hst _].
  split; [exact Hst|reflexivity].
Defined.

(** ** How the field derivation fails *)

Lemma bind_Raise_inv {A B} (r : Res A) (f : A → Res B) e :
  r ≫= f = Raise e → r = Raise e ∨ ∃ a, r = Ok a ∧ f a = Raise e.
Proof. destruct r as [a| |]; simpl; [by right; exists a|by left; congruence|done]. Qed.

Lemma py_get_Raise v k d e : py_get v k d = Raise e → e = AttributeError.
Proof. destruct v; simpl; congruence. Qed.

Lemma capital_of_Raise capital_list e :
  capital_of capital_list = Raise e → e = KeyError ∨ e = TypeError.
Proof.
  unfold capital_of.
  destruct capital_list as [|[]|z|m x|[|a s]|[|first rest]|[|field fields]];
    simpl; try done; try (intros [= <-]; tauto).
  - destruct (_ =? _)%Z; simpl; [done|intros [= <-]; tauto].
  - destruct (_ =? _)%Z; simpl; [done|intros [= <-]; tauto].
Qed.

(** X7. The field derivation fails only with [AttributeError],
    [TypeError] or [KeyError] (an entry, [name] or [capitalInfo] that is
    no dict; a [capital] that is a number, [true] or a dict): the test
    [if capital_list] keeps [capital_list[0]] from an [IndexError]. *)
Theorem derive_fields_failures c e :
  derive_fields c = Raise e → is_lookup_error e = true ∧ e ≠ IndexError.
Proof.
  intros Hraise.
  assert (Hcases : e = AttributeError ∨ e = KeyError ∨ e = TypeError).
  { unfold derive_fields, name_of, capital_list_of, population_of, latlng_of in Hraise.
    repeat match goal with
           | H : _ ≫= _ = Raise _ |- _ =>
               apply bind_Raise_inv in H as [H|(? & ? & H)]
           | H : py_get _ _ _ = Raise _ |- _ => apply py_get_Raise in H
           | H : capital_of _ = Raise _ |- _ => apply capital_of_Raise in H
           | H : (if ?b then _ else _) = Raise _ |- _ => destruct b
           | H : mret _ = Raise _ |- _ => discriminate H
           end; tauto. }
  destruct Hcases as [->|[->| ->]]; done.
Qed.

Lemma derive_fields_failures_witness :
  derive_fields (JObj [("capital", JObj [("city", JStr "Paris")])]) = Raise KeyError
  ∧ is_lookup_error KeyError = true ∧ KeyError ≠ IndexError.
Proof.
  split; [reflexivity|].
  apply (derive_fields_failures (JObj [("capital", JObj [("city", JStr "Paris")])])).
  reflexivity.
Defined.

(** ** Small lists are shown whole *)

(** X8. With at most five countries in the list, the sample is a
    rearrangement of the whole list: every country is shown. *)
Theorem small_list_is_sampled_whole countries st :
  length countries ≤ 5 →
  length countries ≤ length (rng st) →
  ∃ sample,
    select_sample (JArr countries) st
    = (Ok sample, set_rng (drop (length countries) (rng st)) st)
    ∧ sample ≡ₚ countries.
Proof.
  intros Hsmall Htape.
  cbv beta iota delta [select_sample mbind M_bind eval py_len py_sequence].
  rewrite Nat.min_r by done. unfold random_sample.
  destruct (Nat.ltb_spec (length countries) (length countries)) as [?|_]; [lia|].
  assert (Hsize : setsize (length countries) = 21).
  { unfold setsize. by destruct (Nat.ltb_spec 5 (length countries)); [lia|]. }
  rewrite Hsize. destruct (Nat.leb_spec (length countries) 21) as [_|?]; [|lia].
  destruct (sample_pool_spec (length countries) 0 (length countries) countries [] st)
    as (sample & pool' & Hrun & _ & Hperm); [done|lia|done|].
  exists sample. split; [done|].
  rewrite Nat.sub_0_r, Nat.sub_diag, take_0, app_nil_r in Hperm.
  rewrite Hperm. simpl. by rewrite firstn_all.
Qed.

Lemma small_list_is_sampled_whole_witness :
  ∃ sample,
    select_sample (JArr [france; iceland; bouvet]) demo_state
    = (Ok sample, set_rng [1; 5; 9; 2; 6] demo_state)
    ∧ sample ≡ₚ [france; iceland; bouvet].
Proof.
  apply (small_list_is_sampled_whole [france; iceland; bouvet] demo_state);
    simpl; lia.
Defined.

(** ** The effects of one run, counted and in order *)

Lemma silent_ret {A} (a : A) : silent (mret a).
Proof. by intros st. Qed.

Lemma silent_eval {A} (r : Res A) : silent (eval r).
Proof. by intros st. Qed.

Lemma silent_bind {A B} (m : M A) (f : A → M B) :
  silent m → (∀ a, silent (f a)) → silent (m ≫= f).
Proof.
  intros Hm Hf st. unfold mbind, M_bind. specialize (Hm st).
  destruct (m st) as [[a|e|] st1]; simpl in *; try done.
  destruct Hm as [Hlog1 Hhist1]. destruct (Hf a st1) as [Hlog Hhist].
  split; congruence.
Qed.

Lemma silent_randbelow n : silent (randbelow n).
Proof. intros st. unfold randbelow. by destruct (rng st). Qed.

Lemma silent_fresh_index n selected : silent (fresh_index n selected).
Proof.
  intros st. unfold fresh_index. by destruct (fresh_draw n selected (rng st)) as [[j t]|].
Qed.

Lemma silent_list_index {A} (l : list A) i : silent (list_index l i).
Proof. unfold list_index. by destruct (l !! i). Qed.

Lemma silent_sample_pool {A} todo : ∀ i n (pool result : list A),
  silent (sample_pool todo i n pool result).
Proof.
  induction todo as [|todo IH]; intros; simpl; [apply silent_ret|].
  repeat (apply silent_bind; [auto using silent_randbelow, silent_list_index|intros ?]).
  apply IH.
Qed.

Lemma silent_sample_set {A} todo : ∀ n (population : list A) selected result,
  silent (sample_set todo n population selected result).
Proof.
  induction todo as [|todo IH]; intros; simpl; [apply silent_ret|].
  repeat (apply silent_bind; [auto using silent_fresh_index, silent_list_index|intros ?]).
  apply IH.
Qed.

Lemma silent_select_sample countries_data : silent (select_sample countries_data).
Proof.
  unfold select_sample.
  repeat (apply silent_bind; [apply silent_eval|intros ?]).
  unfold random_sample. destruct (_ <? _); [by intros st|].
  destruct (_ <=? _); [apply silent_sample_pool|apply silent_sample_set].
Qed.

(** A sample that is returned has the length that was asked for. *)
Lemma sample_pool_length {A} todo : ∀ i n (pool result sample : list A) st st',
  sample_pool todo i n pool result st = (Ok sample, st') →
  length sample = length result + todo.
Proof.
  induction todo as [|todo IH]; intros i n pool result sample st st'; simpl.
  - intros [= <- _]. lia.
  - unfold mbind, M_bind.
    destruct (randbelow (n - i) st) as [[j|e|] st1]; try done.
    destruct (list_index pool j st1) as [[x|e|] st2]; try done.
    destruct (list_index pool (n - i - 1) st2) as [[y|e|] st3]; try done.
    intros Hrun%IH. rewrite length_app in Hrun. simpl in Hrun. lia.
Qed.

Lemma sample_set_length {A} todo : ∀ n (population : list A) selected result sample st st',
  sample_set todo n population selected result st = (Ok sample, st') →
  length sample = length result + todo.
Proof.
  induction todo as [|todo IH]; intros n population selected result sample st st'; simpl.
  - intros [= <- _]. lia.
  - unfold mbind, M_bind.
    destruct (fresh_index n selected st) as [[j|e|] st1]; try done.
    destruct (list_index population j st1) as [[x|e|] st2]; try done.
    intros Hrun%IH. rewrite length_app in Hrun. simpl in Hrun. lia.
Qed.

Lemma select_sample_length countries_data sample st st' :
  select_sample countries_data st = (Ok sample, st') → length sample ≤ 5.
Proof.
  unfold select_sample, mbind, M_bind, eval.
  destruct (py_len countries_data) as [n| |]; try done.
  destruct (py_sequence countries_data) as [population| |]; try done.
  unfold random_sample. destruct (_ <? _); [done|].
  destruct (_ <=? _).
  - intros Hrun%sample_pool_length. simpl length in Hrun. lia.
  - intros Hrun%sample_set_length. simpl length in Hrun. lia.
Qed.

Lemma weather_events_item W pos c item :
  item_of W pos c = Ok item → weather_events W c = weather_request W item.
Proof.
  intros (f & Hf & _ & ->)%item_of_Ok. unfold weather_events, weather_request.
  by rewrite Hf.
Qed.

Lemma weather_events_short W c : length (weather_events W c) ≤ 1.
Proof.
  unfold weather_events. destruct (derive_fields c) as [f| |]; simpl; try lia.
  destruct (wants_weather W (f_capital f)); simpl; lia.
Qed.

Lemma weather_events_http W c : Forall is_http (weather_events W c).
Proof.
  unfold weather_events. destruct (derive_fields c) as [f| |]; try done.
  destruct (wants_weather W (f_capital f)); by repeat constructor.
Qed.

(** The loop issues at most one request for each country of the sample. *)
Lemma for_each_country_request_count W sample : ∀ acc st,
  ∃ evs,
    snd (for_each_country W sample acc st) = add_logs evs st
    ∧ Forall is_http evs
    ∧ length evs ≤ length sample.
Proof.
  induction sample as [|c rest IH]; intros acc st.
  - exists []. rewrite add_logs_nil. split_and!; [done|done|simpl; lia].
  - simpl. unfold mbind, M_bind. rewrite loop_body_run.
    pose proof (weather_events_short W c) as Hshort.
    pose proof (weather_events_http W c) as Hhttp.
    destruct (item_of W (length acc) c) as [item|e|];
      try (exists (weather_events W c); split_and!; [done|done|simpl; lia]).
    destruct (IH (acc ++ [item]) (add_logs (weather_events W c) st))
      as (evs & -> & Hevs & Hlen).
    exists (weather_events W c ++ evs). split_and!.
    + by rewrite add_logs_app.
    + by apply Forall_app.
    + rewrite length_app. simpl. lia.
Qed.

(** The requests of a loop that completes, read off its items. *)
Lemma for_each_country_trace W sample : ∀ acc st results st',
  for_each_country W sample acc st = (Ok results, st') →
  ∃ items, results = acc ++ items ∧ st' = add_logs (items ≫= weather_request W) st.
Proof.
  induction sample as [|c rest IH]; intros acc st results st'; simpl.
  - intros [= <- <-]. exists []. by rewrite app_nil_r, add_logs_nil.
  - unfold mbind, M_bind. rewrite loop_body_run.
    destruct (item_of W (length acc) c) as [item|e|] eqn:Hitem; try done.
    intros (items & -> & ->)%IH. exists (item :: items). split.
    + by rewrite <- app_assoc.
    + rewrite add_logs_app. by rewrite (weather_events_item _ _ _ _ Hitem).
Qed.

Lemma search_log W form cn st :
  ∃ requests tail,
    log (snd (search W form cn st))
    = log st ++ HttpGet (REST_COUNTRIES_URL (lower cn)) [] 10 :: requests ++ tail
    ∧ Forall is_http requests
    ∧ length requests ≤ 5
    ∧ (tail = [] ∨ ∃ doc, tail = [InsertOne doc]).
Proof.
  assert (Hnone : ∀ st0 : State,
            log st0 = log st ++ [HttpGet (REST_COUNTRIES_URL (lower cn)) [] 10] →
            ∃ requests tail,
              log st0
              = log st ++ HttpGet (REST_COUNTRIES_URL (lower cn)) [] 10 :: requests ++ tail
              ∧ Forall is_http requests ∧ length requests ≤ 5
              ∧ (tail = [] ∨ ∃ doc, tail = [InsertOne doc])).
  { intros st0 Hlog. exists [], []. split_and!; [done|done|simpl; lia|by left]. }
  rewrite search_run. cbv zeta.
  set (st0 := add_logs [HttpGet (REST_COUNTRIES_URL (lower cn)) [] 10] st).
  destruct (countries_api W _) as [e|resp]; [by apply Hnone|].
  destruct (raise_for_status resp) as [[]|e|]; try by apply Hnone.
  destruct (body resp) as [data|]; [|by apply Hnone].
  destruct (truthy data); [|by apply Hnone].
  destruct (silent_select_sample data st0) as [Hlog1 _].
  destruct (select_sample data st0) as [[sample|e|] st1] eqn:Hsel; simpl in Hlog1;
    try by apply Hnone.
  apply select_sample_length in Hsel.
  destruct (for_each_country_request_count W sample [] st1) as (evs & Hst2 & Hhttp & Hlen).
  destruct (for_each_country W sample [] st1) as [[results|e|] st2]; simpl in Hst2; subst st2.
  - exists evs, [InsertOne (mkRecord cn (utcnow W) results)].
    split_and!; [|done|lia|by right; eexists].
    rewrite save_history_run. simpl.
    destruct (insert_one W _); simpl; rewrite Hlog1; simpl;
      by rewrite <- !app_assoc.
  - exists evs, []. split_and!; [|done|lia|by left].
    simpl. rewrite Hlog1. simpl. by rewrite app_nil_r, <- app_assoc.
  - exists evs, []. split_and!; [|done|lia|by left].
    simpl. rewrite Hlog1. simpl. by rewrite app_nil_r, <- app_assoc.
Qed.

(** X9. Whatever the outside world does and however the run ends, one
    call of [home] makes at most six HTTP requests (the country lookup
    and one weather request for each of at most five countries) and
    calls [insert_one] at most once. *)
Theorem request_budget W request st :
  length (filter is_http (issued st (snd (home W request st)))) ≤ 6
  ∧ length (inserts (issued st (snd (home W request st)))) ≤ 1.
Proof.
  unfold home. destruct (_ && _).
  - destruct (search_log W (ContinentForm request)
                (default "" (cleaned_continent W (ContinentForm request))) st)
      as (requests & tail & Hlog & Hhttp & Hlen & Htail).
    rewrite (issued_app _ _ _ Hlog).
    change (?ev :: requests ++ tail) with ([ev] ++ requests ++ tail).
    rewrite !filter_app, !inserts_app, !length_app, (inserts_http _ Hhttp).
    pose proof (length_filter is_http requests) as Hle.
    destruct Htail as [->|[doc ->]]; simpl; lia.
  - simpl. rewrite issued_refl. simpl. lia.
Qed.

(** X10. A run that renders results has done, in this order: the country
    lookup for the lower-cased continent; one weather request for each
    rendered item whose capital is not "N/A" (none without a key), in
    the order of the items; the insert of the record with these
    results. *)
Theorem effects_in_order W request st f cn results st' :
  home W request st
  = (Ok (render "search_results.html" (ResultsContext f cn results)), st') →
  issued st st'
  = HttpGet (REST_COUNTRIES_URL (lower cn)) [] 10
    :: (results ≫= weather_request W) ++ [InsertOne (mkRecord cn (utcnow W) results)].
Proof.
  unfold home. destruct (_ && _); [|done].
  rewrite search_run. cbv zeta.
  generalize (default "" (cleaned_continent W (ContinentForm request))). intros cn'.
  set (st0 := add_logs [HttpGet (REST_COUNTRIES_URL (lower cn')) [] 10] st).
  destruct (countries_api W _) as [e|resp]; [by destruct (is_RequestException e)|].
  destruct (raise_for_status resp) as [[]|e|]; try done.
  destruct (body resp) as [data|]; [|done].
  destruct (truthy data); [|done].
  destruct (silent_select_sample data st0) as [Hlog1 _].
  destruct (select_sample data st0) as [[sample|e|] st1]; simpl in Hlog1; try done.
  destruct (for_each_country W sample [] st1) as [[results'|e|] st2] eqn:Hloop; try done.
  apply for_each_country_trace in Hloop as (items & Hitems & ->). simpl in Hitems. subst items.
  rewrite save_history_run. intros [= <- <- <- <-].
  apply issued_app.
  destruct (insert_one W _); simpl; rewrite Hlog1; simpl; by rewrite <- !app_assoc.
Qed.

Lemma effects_in_order_witness :
  ∃ results st',
    home demo_world demo_request demo_state
    = (Ok (render "search_results.html"
             (ResultsContext (ContinentForm demo_request) "Europe" results)), st')
    ∧ issued demo_state st'
      = [HttpGet "https://restcountries.com/v3.1/region/europe" [] 10;
         HttpGet OPENWEATHER_URL
           [("q", JStr "Paris"); ("appid", JStr "secret"); ("units", JStr "metric")] 10;
         HttpGet OPENWEATHER_URL
           [("q", JStr "Reykjavik"); ("appid", JStr "secret"); ("units", JStr "metric")] 10;
         InsertOne (mkRecord "Europe" (utcnow demo_world) results)].
Proof.
  destruct (home demo_world demo_request demo_state) as [r st'] eqn:Hrun.
  destruct r as [[t [| f cn results |]]| |]; try by vm_compute in Hrun.
  assert (Hshape : t = "search_results.html" ∧ f = ContinentForm demo_request
                   ∧ cn = "Europe"
                   ∧ capital <$> results = [JStr "Paris"; JStr "Reykjavik"; JStr "N/A"]).
  { vm_compute in Hrun. by simplify_eq. }
  destruct Hshape as (-> & -> & -> & Hcapitals).
  exists results, st'. split; [done|].
  rewrite (effects_in_order _ _ _ _ _ _ _ Hrun).
  destruct results as [|r1 [|r2 [|r3 [|]]]]; try done.
  simpl in Hcapitals. injection Hcapitals as H1 H2 H3.
  unfold weather_request, mbind. simpl. by rewrite H1, H2, H3.
Defined.

(** ** From a search to the history page *)

Lemma home_results_collection W request st f cn results st' :
  home W request st
  = (Ok (render "search_results.html" (ResultsContext f cn results)), st') →
  history_collection st'
  = history_collection st
    ++ match insert_one W (mkRecord cn (utcnow W) results) with
       | None => [mkRecord cn (utcnow W) results]
       | Some _ => []
       end.
Proof.
  unfold home. destruct (_ && _); [|done].
  generalize (default "" (cleaned_continent W (ContinentForm request))). intros cn'.
  destruct (search W (ContinentForm request) cn' st) as [r st1] eqn:Hsearch.
  intros [= -> ->].
  apply search_cases in Hsearch
    as [[_ Hpage]
       |(resp & data & sample & results' & st2 & st3 & _ & _ & _ & _ & _ & _ & Hquiet
         & Hsave & Hpage)].
  - by destruct (Hpage _ eq_refl) as [msg ?].
  - simplify_eq.
    destruct (save_history_effects W cn' results' st st3 Hquiet) as [_ Hhist].
    by rewrite Hsave in Hhist.
Qed.

(** In a list sorted newest first, a record newer than all others comes
    first. *)
Lemma newest_comes_first (sorted collection : list SearchHistoryRecord) doc :
  StronglySorted newer_first sorted →
  sorted ≡ₚ collection ++ [doc] →
  (∀ old, old ∈ collection → (searched_at old < searched_at doc)%Z) →
  ∃ rest, sorted = doc :: rest ∧ rest ≡ₚ collection.
Proof.
  intros Hsorted Hperm Hnewer.
  destruct sorted as [|x rest].
  { apply Permutation_nil_l in Hperm. by destruct collection. }
  apply StronglySorted_cons in Hsorted as [Hfirst _].
  assert (Hx : x ∈ collection ++ [doc]) by (rewrite <- Hperm; apply list_elem_of_here).
  assert (Hdoc : doc ∈ x :: rest) by (rewrite Hperm; set_solver).
  assert (x = doc) as ->.
  { apply elem_of_app in Hx as [Hold|Hx]; [|by apply list_elem_of_singleton in Hx].
    specialize (Hnewer x Hold).
    apply elem_of_cons in Hdoc as [->|Hdoc]; [lia|].
    rewrite Forall_forall in Hfirst. specialize (Hfirst doc Hdoc).
    unfold newer_first in Hfirst. lia. }
  exists rest. split; [done|].
  rewrite <- Permutation_cons_append in Hperm. by apply Permutation_cons_inv in Hperm.
Qed.

(** X11. After a search that rendered results and whose record the store
    accepted, the history page lists first a record with the continent
    and the results of that search, timed in the millisecond of the
    search, followed by at most nineteen of the records that were there
    before; provided every stored record is of an earlier millisecond
    (the store keeps time to the millisecond, so the statement is made
    at that grain and does not name the stored timestamp). *)
Theorem new_record_heads_history W request request' st f cn rendered st' :
  home W request st
  = (Ok (render "search_results.html" (ResultsContext f cn rendered)), st') →
  insert_one W (mkRecord cn (utcnow W) rendered) = None →
  find_fails W = None →
  (∀ old, old ∈ history_collection st → (searched_at old / 1000 < utcnow W / 1000)%Z) →
  ∃ first rest,
    fst (history_view W request' st')
    = Ok (render "history.html" (HistoryContext (first :: rest)))
    ∧ continent first = cn
    ∧ results first = rendered
    ∧ (searched_at first / 1000 = utcnow W / 1000)%Z
    ∧ rest ⊆+ history_collection st
    ∧ length rest ≤ 19.
Proof.
  intros Hrun Haccepted Hfind Hclock.
  apply home_results_collection in Hrun. rewrite Haccepted in Hrun.
  destruct (newest_comes_first (merge_sort newer_first (history_collection st'))
              (history_collection st) (mkRecord cn (utcnow W) rendered))
    as (rest & Hsorted & Hrest).
  - apply StronglySorted_merge_sort; apply _.
  - by rewrite merge_sort_Permutation, Hrun.
  - intros old Hold. specialize (Hclock old Hold). simpl.
    destruct (Z.lt_ge_cases (searched_at old) (utcnow W)) as [?|Hge]; [done|].
    apply (Z.div_le_mono _ _ 1000) in Hge; lia.
  - exists (mkRecord cn (utcnow W) rendered), (take 19 rest). split_and!; try done.
    + unfold history_view, try_except, collection_find_sort_limit, mbind, M_bind, emit.
      rewrite Hfind. simpl. by rewrite Hsorted.
    + rewrite <- Hrest. apply sublist_submseteq, sublist_take.
    + rewrite length_take. lia.
Qed.

Lemma new_record_heads_history_witness :
  let earlier := mkRecord "Asia" 1600000000000000 [] in
  let st := mkState (rng demo_state) [earlier] [] in
  ∃ rendered st' first rest,
    home demo_world demo_request st
    = (Ok (render "search_results.html"
             (ResultsContext (ContinentForm demo_request) "Europe" rendered)), st')
    ∧ fst (history_view demo_world (mkRequest "GET" []) st')
      = Ok (render "history.html" (HistoryContext (first :: rest)))
    ∧ continent first = "Europe"
    ∧ results first = rendered
    ∧ rest ⊆+ [earlier].
Proof.
  intros earlier st.
  destruct (home demo_world demo_request st) as [r st'] eqn:Hrun.
  destruct r as [[t [| f cn rendered |]]| |]; try by vm_compute in Hrun.
  assert (Hshape : t = "search_results.html" ∧ f = ContinentForm demo_request
                   ∧ cn = "Europe").
  { vm_compute in Hrun. by simplify_eq. }
  destruct Hshape as (-> & -> & ->).
  destruct (new_record_heads_history demo_world demo_request (mkRequest "GET" []) st
              _ _ _ _ Hrun eq_refl eq_refl)
    as (first & rest & Hview & Hcontinent & Hresults & _ & Hrest & _).
  { intros old ->%list_elem_of_singleton. by vm_compute. }
  by exists rendered, st', first, rest.
Defined.

(** ** Well-shaped answers never make the handler fail *)

Lemma derive_fields_shaped c :
  is_country c = true → ∃ f, derive_fields c = Ok f.
Proof.
  destruct c as [| | | | | |fields]; try done. unfold is_country, country_shape.
  intros Hshape.
  apply andb_prop in Hshape as [Hshape Hpair].
  apply andb_prop in Hshape as [Hshape Hinfo].
  apply andb_prop in Hshape as [Hname Hcapital].
  unfold derive_fields. rewrite (name_of_spec _ Hname).
  pose proof (capital_of_spec _ Hcapital) as Hc.
  destruct (capital_list_of (JObj fields)) as [capital_list| |]; try done.
  change (capital_of capital_list = Ok (spec_capital fields)) in Hc.
  cbn [mbind Res_bind]. rewrite Hc. cbn [mbind Res_bind].
  rewrite (latlng_of_spec _ Hinfo Hpair). by eexists.
Qed.

Lemma weather_of_shaped W pos capital :
  weather_answer_shaped (weather_api W pos capital) = true →
  ∃ w, weather_of W pos capital = Ok w.
Proof.
  unfold weather_of, weather_answer_shaped.
  destruct (wants_weather W capital); [|by eexists].
  destruct (weather_api W pos capital) as [e|[status w_body]].
  - simpl. intros ->. by eexists.
  - simpl. destruct (Z.eqb_spec status 200) as [->|Hstatus].
    + destruct w_body as [[| | | | | |fields]|]; try done.
      intros Hshape. rewrite (read_weather_shaped _ Hshape). by eexists.
    + intros _. unfold read_weather. simpl.
      destruct (Z.eqb_spec status 200); [done|]. by eexists.
Qed.

Lemma for_each_country_total W sample : ∀ acc st,
  (∀ c pos, c ∈ sample → ∃ item, item_of W pos c = Ok item) →
  ∃ results st',
    for_each_country W sample acc st = (Ok results, st')
    ∧ length results = length acc + length sample.
Proof.
  induction sample as [|c rest IH]; intros acc st Hitems.
  - exists acc, st. split; [done|]. simpl. lia.
  - simpl. unfold mbind, M_bind. rewrite loop_body_run.
    destruct (Hitems c (length acc)) as [item ->]; [apply list_elem_of_here|].
    destruct (IH (acc ++ [item]) (add_logs (weather_events W c) st))
      as (results & st' & -> & Hlen).
    { intros c' pos Hin. apply Hitems. by apply list_elem_of_further. }
    exists results, st'. split; [done|]. rewrite Hlen, length_app. simpl. lia.
Qed.

Lemma drawn_from_elem_of {A} (sample population : list A) x :
  drawn_from sample population → x ∈ sample → x ∈ population.
Proof.
  intros (idxs & _ & Hidxs) (k & Hk)%list_elem_of_lookup.
  destruct (Forall2_lookup_l _ _ _ _ _ Hidxs Hk) as (i & _ & Hi).
  by eapply list_elem_of_lookup_2.
Qed.

(** X12. When the lookup returns a non-empty list whose entries are all
    shaped as the data model has it, and every weather answer is a
    failure or a 200 with a body of the expected shape, a valid
    submission renders the results page with min(5, N) items (given a
    generator with draws to give): no exception leaves [home]. *)
Theorem shaped_answers_render_results W request st cn resp countries :
  method request = "POST" →
  cleaned_continent W (ContinentForm request) = Some cn →
  countries_api W (REST_COUNTRIES_URL (lower cn)) = HttpResponds resp →
  raise_for_status resp = Ok tt →
  body resp = Some (JArr countries) →
  countries ≠ [] →
  Forall (λ c, is_country c = true) countries →
  (∀ pos q, weather_answer_shaped (weather_api W pos q) = true) →
  enough_draws (length countries) (min 5 (length countries)) (rng st) →
  ∃ results st',
    home W request st
    = (Ok (render "search_results.html" (ResultsContext (ContinentForm request) cn results)),
       st')
    ∧ length results = min 5 (length countries).
Proof.
  intros Hmethod Hclean Hapi Hstatus Hbody Hne Hcountries Hweather Hdraws.
  rewrite (home_submitted _ _ _ Hmethod Hclean), search_run. cbv zeta.
  set (st0 := add_logs [HttpGet (REST_COUNTRIES_URL (lower cn)) [] 10] st).
  rewrite Hapi, Hstatus, Hbody.
  destruct (select_sample_list countries st0 Hdraws) as (sample & t & Hsel & Hlen & Hdrawn).
  destruct countries as [|c0 countries']; [done|]. simpl truthy. cbv iota. rewrite Hsel.
  destruct (for_each_country_total W sample [] (set_rng t st0))
    as (results & st2 & Hloop & Hlen').
  { intros c pos Hin.
    pose proof (drawn_from_elem_of _ _ _ Hdrawn Hin) as Hc.
    rewrite Forall_forall in Hcountries.
    destruct (derive_fields_shaped c (Hcountries c Hc)) as [f Hf].
    destruct (weather_of_shaped W pos (f_capital f) (Hweather _ _)) as [w Hw].
    exists (mkItem (f_name f) (f_capital f) (f_population f) (f_latlng f) w).
    apply item_of_Ok. by exists f. }
  rewrite Hloop. exists results, (snd (save_history W cn results st2)).
  split; [done|]. simpl in Hlen'. lia.
Qed.

Lemma shaped_answers_render_results_witness :
  ∃ results st',
    home demo_world demo_request demo_state
    = (Ok (render "search_results.html"
             (ResultsContext (ContinentForm demo_request) "Europe" results)), st')
    ∧ length results = 3.
Proof.
  apply (shaped_answers_render_results demo_world demo_request demo_state "Europe"
           (mkResponse 200 (Some (JArr [france; iceland; bouvet])))
           [france; iceland; bouvet]); try reflexivity.
  - done.
  - by repeat constructor.
  - vm_compute. lia.
Defined.

(** ** A short history is listed whole *)

(** X13. While the collection holds at most twenty records and the store
    answers, the history page lists every one of them. *)
Theorem short_history_is_listed_whole W request st :
  find_fails W = None →
  length (history_collection st) ≤ 20 →
  ∃ searches,
    fst (history_view W request st) = Ok (render "history.html" (HistoryContext searches))
    ∧ searches ≡ₚ history_collection st.
Proof.
  intros Hfind Hshort.
  exists (merge_sort newer_first (history_collection st)). split.
  - unfold history_view, try_except, collection_find_sort_limit, mbind, M_bind, emit.
    rewrite Hfind. simpl. rewrite take_ge; [done|].
    by rewrite merge_sort_Permutation.
  - apply merge_sort_Permutation.
Qed.

Lemma short_history_is_listed_whole_witness :
  let older := mkRecord "Asia" 100 [] in
  let newer := mkRecord "Europe" 300 [] in
  let st := mkState [] [older; newer] [] in
  ∃ searches,
    fst (history_view demo_world demo_request st)
    = Ok (render "history.html" (HistoryContext searches))
    ∧ searches ≡ₚ [older; newer].
Proof.
  intros older newer st.
  apply (short_history_is_listed_whole demo_world demo_request st eq_refl).
  simpl. lia.
Defined.

(** ** Sampling a list never raises *)

Lemma fresh_draw_below n selected tape j t :
  0 < n → fresh_draw n selected tape = Some (j, t) → j < n.
Proof.
  intros Hn. induction tape as [|r tape IH]; simpl; [done|].
  case_decide; [done|]. intros [= <- _]. by apply Nat.mod_upper_bound, Nat.neq_0_lt_0.
Qed.

Lemma sample_pool_never_raises {A} todo : ∀ i n (pool result : list A) st e,
  length pool = n → i + todo ≤ n →
  fst (sample_pool todo i n pool result st) ≠ Raise e.
Proof.
  induction todo as [|todo IH]; intros i n pool result st e Hlen Hi; [done|].
  simpl. unfold mbind, M_bind, randbelow.
  destruct (rng st) as [|r t]; [done|].
  assert (Hj : r mod (n - i) < n - i) by (apply Nat.mod_upper_bound; lia).
  destruct (lookup_lt_is_Some_2 pool (r mod (n - i))) as [x Hx]; [lia|].
  destruct (lookup_lt_is_Some_2 pool (n - i - 1)) as [y Hy]; [lia|].
  rewrite (list_index_Some _ _ _ _ Hx), (list_index_Some _ _ _ _ Hy).
  apply IH; [by rewrite length_insert|lia].
Qed.

Lemma sample_set_never_raises {A} todo : ∀ n (population : list A) selected result st e,
  0 < n → n = length population →
  fst (sample_set todo n population selected result st) ≠ Raise e.
Proof.
  induction todo as [|todo IH]; intros n population selected result st e Hn Hlen; [done|].
  simpl. unfold mbind, M_bind, fresh_index.
  destruct (fresh_draw n selected (rng st)) as [[j t]|] eqn:Hdraw; [|done].
  apply fresh_draw_below in Hdraw; [|done].
  destruct (lookup_lt_is_Some_2 population j) as [x Hx]; [lia|].
  rewrite (list_index_Some _ _ _ _ Hx). by apply IH.
Qed.

(** X14. On a list of countries the sampling step raises nothing: asking
    for min(5, len) keeps [random.sample] from its [ValueError], and
    every index it uses is within the list. *)
Theorem sampling_a_list_never_raises countries st e :
  fst (select_sample (JArr countries) st) ≠ Raise e.
Proof.
  cbv beta iota delta [select_sample mbind M_bind eval py_len py_sequence].
  unfold random_sample.
  destruct (Nat.ltb_spec (length countries) (min 5 (length countries))) as [?|_]; [lia|].
  destruct (Nat.leb_spec (length countries) (setsize (min 5 (length countries))))
    as [_|Hbig].
  - apply sample_pool_never_raises; [done|lia].
  - apply sample_set_never_raises; [|done].
    unfold setsize in Hbig. destruct (5 <? _); lia.
Qed.
